(** * Kickbase budget checker: a shallow embedding of [src/index.ts]

    The script logs into the Kickbase API, discovers the account's leagues
    (with an in-memory cache), fetches the budget of the first league and
    sends a WhatsApp template message through Twilio when the budget is
    below [KICKBASE_BUDGET_THRESHOLD].

    The embedding keeps the three module-level variables of the script
    ([authToken], [tokenExpiry], [cachedLeagues]) in a record, threads them
    through a small state/exception/trace monad, and treats everything the
    script cannot control (the HTTP server, the Twilio client, the clock, the
    host's date parser) as an oracle indexed by a logical tick. *)

From Stdlib Require Import ZArith List String Ascii Bool Lia.
From Stdlib Require Import SpecFloat.
Import ListNotations.
Local Open Scope string_scope.
Local Open Scope Z_scope.

(** ** JavaScript numbers: the part used by [(budget / 1_000_000).toFixed(2)]

    A JS number is an IEEE-754 binary64 value.  [SpecFloat] gives the
    operations on [spec_float] with precision 53 and maximal exponent 1024. *)

Module JSNumber.

Definition prec : Z := 53.
Definition emax : Z := 1024.

(** The Number value of a mathematical integer (what [JSON.parse] or a
    numeric literal yields): round to nearest, ties to even. *)
Definition of_Z (n : Z) : spec_float := binary_normalize prec emax n 0 false.

(** [x / y] on numbers. *)
Definition div (x y : spec_float) : spec_float := SFdiv prec emax x y.

(** Decimal digits of a natural number, most significant first; the empty
    string for 0.  The fuel is the number of binary digits, which bounds the
    number of decimal digits. *)
Fixpoint digits_fuel (fuel : nat) (n : Z) (acc : string) : string :=
  match fuel with
  | O => acc
  | S fuel' =>
      if n <=? 0 then acc
      else digits_fuel fuel' (n / 10)
             (String (ascii_of_nat (48 + Z.to_nat (n mod 10))) acc)
  end.

Definition digits (n : Z) : string :=
  digits_fuel (S (Z.to_nat (Z.log2 n))) n "".

(** ToString applied to an integer (used for HTTP status codes and for
    decimal exponents). *)
Definition Z_toString (n : Z) : string :=
  if n =? 0 then "0"
  else if n <? 0 then "-" ++ digits (- n)
  else digits n.

(** The mathematical value of a positive finite number [m * 2^e] as an
    exact fraction (numerator, denominator). *)
Definition frac (m : positive) (e : Z) : Z * Z :=
  if 0 <=? e then (Zpos m * 2 ^ e, 1) else (Zpos m, 2 ^ (- e)).

(** The integer [n] for which [n / 10^f - x] is as close to zero as
    possible, the larger one when there are two (step 10.a of
    Number.prototype.toFixed), for [x = num / den > 0]. *)
Definition nearest_scaled (f : Z) (num den : Z) : Z :=
  (2 * num * 10 ^ f + den) / (2 * den).

Fixpoint zeros (k : nat) : string :=
  match k with O => "" | S k' => String "0" (zeros k') end.

Fixpoint take (k : nat) (s : string) : string :=
  match k, s with
  | S k', String c s' => String c (take k' s')
  | _, _ => ""
  end.

Fixpoint drop (k : nat) (s : string) : string :=
  match k, s with
  | S k', String _ s' => drop k' s'
  | _, _ => s
  end.

(** Steps 10.b-10.c of toFixed: the digits of [n] with a decimal point
    before the last [f] digits, left-padded with zeros to [f + 1] digits. *)
Definition fixed_digits (f : nat) (n : Z) : string :=
  let m := if n =? 0 then "0" else digits n in
  let k := String.length m in
  let m := if (k <=? f)%nat then zeros (f + 1 - k) ++ m else m in
  let k := String.length m in
  match f with
  | O => m
  | _ => take (k - f) m ++ "." ++ drop (k - f) m
  end.

(** Number::toString for a finite [x >= 10^21], given as the integer it
    denotes: the shortest digit string [s] (of [k] digits) such that
    [s * 10^(n-k)] has Number value [x], the closest to [x] when there are
    several, rendered in exponent notation. *)
Definition num_digits (v : Z) : Z := Z.of_nat (String.length (digits v)).

Definition candidate (x : spec_float) (v : Z) (n k : Z) : option (Z * Z) :=
  let p := 10 ^ (n - k) in
  let lo := v / p in
  let hi := lo + 1 in
  let ok s := (10 ^ (k - 1) <=? s) && (s <=? 10 ^ k) && SFeqb (of_Z (s * p)) x in
  let dlo := Z.abs (v - lo * p) in
  let dhi := Z.abs (hi * p - v) in
  (* [hi = 10^k] denotes the same value as the [k]-digit string [10^(k-1)]
     one decimal exponent higher *)
  let up := if hi =? 10 ^ k then (10 ^ (k - 1), n + 1) else (hi, n) in
  match ok lo, ok hi with
  | true, true =>
      if dlo <? dhi then Some (lo, n)
      else if dhi <? dlo then Some up
      else if Z.even lo then Some (lo, n) else Some up
  | true, false => Some (lo, n)
  | false, true => Some up
  | false, false => None
  end.

Fixpoint shortest (fuel : nat) (x : spec_float) (v : Z) (n k : Z)
  : Z * Z * Z :=
  match fuel with
  | O => (v, n, n)
  | S fuel' =>
      match candidate x v n k with
      | Some (s, n') => (s, n', k)
      | None => shortest fuel' x v n (k + 1)
      end
  end.

Definition exponential (x : spec_float) (v : Z) : string :=
  let n0 := num_digits v in
  let '(s, n, k) := shortest (Z.to_nat n0) x v n0 1 in
  let d := digits s in
  let mant := if k =? 1 then d else take 1 d ++ "." ++ drop 1 d in
  mant ++ "e+" ++ Z_toString (n - 1).

(** Number.prototype.toFixed(fractionDigits) for [0 <= fractionDigits]. *)
Definition toFixed (x : spec_float) (f : nat) : string :=
  match x with
  | S754_nan => "NaN"
  | S754_infinity false => "Infinity"
  | S754_infinity true => "-Infinity"
  | S754_zero _ => fixed_digits f 0
  | S754_finite sgn m e =>
      let s := if sgn then "-" else "" in
      let '(num, den) := frac m e in
      if 10 ^ 21 * den <=? num
      then s ++ exponential (S754_finite false m e) num
      else s ++ fixed_digits f (nearest_scaled (Z.of_nat f) num den)
  end.

End JSNumber.

(** [`${(budget / 1_000_000).toFixed(2)}M`], the rendering of a budget in
    millions used by the alert payload. *)
Definition formatMillions (budget : Z) : string :=
  JSNumber.toFixed (JSNumber.div (JSNumber.of_Z budget) (JSNumber.of_Z 1000000)) 2
  ++ "M".

(** ** JSON.stringify on an object whose values are strings

    [JSON.stringify({ "1": ..., "2": ... })] as used for [contentVariables].
    The object is given as its own properties in enumeration order. *)

Module JSON.

Definition dquote : ascii := ascii_of_nat 34.
Definition backslash : ascii := ascii_of_nat 92.

Definition hex_digit (n : nat) : ascii :=
  if (n <? 10)%nat then ascii_of_nat (48 + n) else ascii_of_nat (87 + n).

(** QuoteJSONString, one code unit at a time. *)
Definition escape_char (c : ascii) : string :=
  let n := nat_of_ascii c in
  if (n =? 34)%nat then String backslash (String dquote "")
  else if (n =? 92)%nat then String backslash (String backslash "")
  else if (n =? 8)%nat then String backslash "b"
  else if (n =? 9)%nat then String backslash "t"
  else if (n =? 10)%nat then String backslash "n"
  else if (n =? 12)%nat then String backslash "f"
  else if (n =? 13)%nat then String backslash "r"
  else if (n <? 32)%nat
       then String backslash
              ("u00" ++ String (hex_digit (n / 16)) (String (hex_digit (n mod 16)) ""))
  else String c "".

Fixpoint escape (s : string) : string :=
  match s with
  | EmptyString => ""
  | String c s' => escape_char c ++ escape s'
  end.

Definition quote (s : string) : string :=
  String dquote (escape s ++ String dquote "").

Fixpoint members (kvs : list (string * string)) : string :=
  match kvs with
  | [] => ""
  | [(k, v)] => quote k ++ ":" ++ quote v
  | (k, v) :: rest => quote k ++ ":" ++ quote v ++ "," ++ members rest
  end.

Definition stringify (kvs : list (string * string)) : string :=
  "{" ++ members kvs ++ "}".

End JSON.

(** ** Data model *)

Local Open Scope list_scope.

(** [interface KickbaseLeague] *)
Record KickbaseLeague := {
  league_id : string;
  league_name : string;
  league_creator : string;
  league_creatorId : string;
  league_creation : string;
  league_maxMembers : Z;
  league_adminCount : Z;
  league_memberCount : Z;
  league_isCommissioner : bool;
  league_cpi : string
}.

(** An element of a league array as the script receives it.  The arrays
    come out of [response.json()] through an unchecked [as] cast, so an
    element may be [null] ([None]), which is falsy. *)
Definition LeagueSlot : Type := option KickbaseLeague.

(** [interface KickbaseLoginResponse]; the user profile [u] is never read by
    the script and is left out.  The cast of the parsed body is unchecked:
    [tkn] may be [null] or missing ([None]). *)
Record KickbaseLoginResponse := {
  tkn : option string;
  tknex : string;
  srvl : option (list LeagueSlot)
}.

(** The parsed body of the leagues endpoint: typed [{ leagues?: ... }] by the
    script, which also accepts a bare array ([Array.isArray(data)]). *)
Inductive LeaguesData :=
| LeaguesObject (leagues : option (list LeagueSlot))
| LeaguesArray (items : list LeagueSlot).

(** The parsed body of the budget endpoint.  Budgets are integers. *)
Record BudgetData := {
  pbas : option Z;
  b : option Z;
  bs : option Z
}.

(** A JS [Date]: its time value in milliseconds, or NaN ([None]) for an
    Invalid Date.  A [Date] object is truthy whatever its time value. *)
Record Date := { timeValue : option Z }.

Definition maxTime : Z := 8640000000000000.

(** A time value, as a valid [Date] holds it and as [Date.now()] returns it. *)
Definition time_value (t : Z) : Prop := - maxTime <= t <= maxTime.

(** TimeClip: [new Date(t)] for a number [t]. *)
Definition Date_of_time (t : Z) : Date :=
  {| timeValue := if Z.abs t <=? maxTime then Some t else None |}.

(** [a > b] on dates compares the time values; false when one is NaN. *)
Definition Date_gt (a b : Date) : bool :=
  match timeValue a, timeValue b with
  | Some x, Some y => y <? x
  | _, _ => false
  end.

(** An error value handed to the script by its environment: a rejected
    [fetch], a body that cannot be read or parsed, a rejected Twilio call. *)
Definition HostError := string.

(** What the script can throw. *)
Inductive JsError :=
| ErrorNew (message : string)      (* [throw new Error(message)] in the script *)
| RangeErrorInvalidTime            (* [toISOString()] on an Invalid Date *)
| Rejected (e : HostError).        (* a rejected promise of the environment *)

(** ** The environment *)

Record Request := {
  req_method : string;
  req_url : string;
  req_headers : list (string * string);
  req_body : option string
}.

Record Response (T : Type) := {
  status : Z;
  statusText : string;
  text : HostError + string;   (* [await response.text()] *)
  json : HostError + T         (* [await response.json()], cast to [T] *)
}.
Arguments status {T} _.
Arguments statusText {T} _.
Arguments text {T} _.
Arguments json {T} _.

(** [response.ok] *)
Definition ok {T} (r : Response T) : bool :=
  (200 <=? status r) && (status r <=? 299).

(** [client.messages.create({ from, contentSid, contentVariables, to })] *)
Record MessageRequest := {
  msg_from : string;
  msg_contentSid : string;
  msg_contentVariables : string;
  msg_to : string
}.

(** Everything outside the script, indexed by a logical tick that advances
    at each interaction. *)
Record World := {
  Date_now : nat -> Z;
  Date_parse : string -> option Z;
  fetch_login : nat -> Request -> HostError + Response KickbaseLoginResponse;
  fetch_leagues : nat -> Request -> HostError + Response LeaguesData;
  fetch_budget : nat -> Request -> HostError + Response BudgetData;
  messages_create : nat -> MessageRequest -> HostError + string
}.

(** [process.env] as read at start-up. *)
Record Config := {
  TWILIO_WHATSAPP_NUMBER : string;
  YOUR_PHONE_NUMBER : string;
  CONTENT_SID : string;
  KICKBASE_EMAIL : string;
  KICKBASE_PASSWORD : string;
  KICKBASE_API_BASE : string
}.

Definition KICKBASE_BUDGET_THRESHOLD : Z := 0.

(** ** Program state and observable events *)

(** The module-level variables. *)
Record Globals := {
  authToken : option string;
  tokenExpiry : option Date;
  cachedLeagues : list LeagueSlot
}.

Definition initialGlobals : Globals :=
  {| authToken := None; tokenExpiry := None; cachedLeagues := [] |}.

Record Machine := { globals : Globals; tick : nat }.

Inductive Level := LOG | WARN | ERROR.

(** Values interpolated into, or passed after, a console message. *)
Inductive LogArg :=
| AStr (s : string)
| AInt (n : Z)
| ANum (x : spec_float)
| ADate (d : Date)
| AErr (e : JsError).

(** The three Kickbase endpoints the script calls. *)
Inductive Endpoint := LoginEndpoint | LeaguesEndpoint | BudgetEndpoint.

Inductive Event :=
| EConsole (lvl : Level) (template : string) (args : list LogArg)
| EFetch (endpoint : Endpoint) (req : Request)
| ETwilio (m : MessageRequest).

Inductive Outcome (A : Type) :=
| Return (a : A)
| Throw (e : JsError).
Arguments Return {A} _.
Arguments Throw {A} _.

(** ** The monad: state, exceptions and an event trace *)

Definition M (A : Type) : Type := Machine -> Outcome A * Machine * list Event.

Definition outcome {A} (r : Outcome A * Machine * list Event) : Outcome A :=
  fst (fst r).
Definition final {A} (r : Outcome A * Machine * list Event) : Machine :=
  snd (fst r).
Definition trace {A} (r : Outcome A * Machine * list Event) : list Event :=
  snd r.

Definition ret {A} (a : A) : M A := fun st => (Return a, st, []).

Definition throw {A} (e : JsError) : M A := fun st => (Throw e, st, []).

Definition bind {A B} (m : M A) (k : A -> M B) : M B :=
  fun st =>
    match m st with
    | (Return a, st1, ev1) =>
        match k a st1 with
        | (o, st2, ev2) => (o, st2, ev1 ++ ev2)
        end
    | (Throw e, st1, ev1) => (Throw e, st1, ev1)
    end.

(** [try { m } catch (error) { h error }] *)
Definition try_catch {A} (m : M A) (h : JsError -> M A) : M A :=
  fun st =>
    match m st with
    | (Return a, st1, ev1) => (Return a, st1, ev1)
    | (Throw e, st1, ev1) =>
        match h e st1 with
        | (o, st2, ev2) => (o, st2, ev1 ++ ev2)
        end
    end.

Declare Scope js_scope.
Delimit Scope js_scope with js.
Notation "x <- m ;; k" := (bind m (fun x => k))
  (at level 61, m at next level, right associativity) : js_scope.
Notation "m ;; k" := (bind m (fun _ => k))
  (at level 61, right associativity) : js_scope.
Local Open Scope js_scope.

Definition emit (e : Event) : M unit := fun st => (Return tt, st, [e]).

Definition console (lvl : Level) (template : string) (args : list LogArg)
  : M unit := emit (EConsole lvl template args).

Definition getGlobals : M Globals := fun st => (Return (globals st), st, []).

Definition setGlobals (g : Globals) : M unit :=
  fun st => (Return tt, {| globals := g; tick := tick st |}, []).

Definition next (st : Machine) : Machine :=
  {| globals := globals st; tick := S (tick st) |}.

(** [await p] for a promise of the environment: the value, or the rejection
    thrown at the [await]. *)
Definition settle {A} (r : HostError + A) : M A :=
  match r with
  | inl e => throw (Rejected e)
  | inr a => ret a
  end.

(** Truthiness of a [string | null]: [null] and the empty string are falsy. *)
Definition truthy_string (s : option string) : bool :=
  match s with
  | None => false
  | Some EmptyString => false
  | Some (String _ _) => true
  end.

(** [n || d] on an optional number: [undefined] and [0] are falsy. *)
Definition number_or (n : option Z) (d : Z) : Z :=
  match n with
  | None => d
  | Some v => if v =? 0 then d else v
  end.

(** [`Bearer ${authToken}`] *)
Definition bearer (token : option string) : string :=
  ("Bearer " ++ match token with Some t => t | None => "null" end)%string.

Definition USER_AGENT : string :=
  "Mozilla/5.0 (Windows NT 10.0; Win64; x64) AppleWebKit/537.36 (KHTML, like Gecko) Chrome/128.0.0.0 Safari/537.36".

(** [data.leagues || (Array.isArray(data) ? data : [])]: an array is truthy
    even when it is empty. *)
Definition leaguesOf (data : LeaguesData) : list LeagueSlot :=
  match data with
  | LeaguesObject (Some ls) => ls
  | LeaguesObject None => []
  | LeaguesArray items => items
  end.

Definition possibleEndpoints : list string := ["/v4/leagues"].

(** ** The script *)

Section Script.

Variable cfg : Config.
Variable w : World.

(** [await fetch(url, init)] against one of the three endpoints. *)
Definition fetch {T} (endpoint : Endpoint)
  (oracle : nat -> Request -> HostError + Response T)
  (req : Request) : M (Response T) :=
  fun st =>
    match oracle (tick st) req with
    | inl e => (Throw (Rejected e), next st, [EFetch endpoint req])
    | inr r => (Return r, next st, [EFetch endpoint req])
    end.

(** [Date.now()] *)
Definition now : M Z :=
  fun st => (Return (Date_now w (tick st)), next st, []).

(** [new Date(s)] for a string [s]. *)
Definition Date_of_string (s : string) : Date :=
  match Date_parse w s with
  | Some t => Date_of_time t
  | None => {| timeValue := None |}
  end.

(** [d.toISOString()] throws a RangeError on an Invalid Date. *)
Definition toISOString (d : Date) : M Date :=
  match timeValue d with
  | Some _ => ret d
  | None => throw RangeErrorInvalidTime
  end.

Definition loginRequest : Request :=
  {| req_method := "POST";
     req_url := (KICKBASE_API_BASE cfg ++ "/v4/user/login")%string;
     req_headers := [("Content-Type", "application/json");
                     ("Accept", "application/json");
                     ("User-Agent", USER_AGENT)];
     req_body :=
       Some ("{" ++ JSON.quote "em" ++ ":" ++ JSON.quote (KICKBASE_EMAIL cfg)
             ++ "," ++ JSON.quote "pass" ++ ":"
             ++ JSON.quote (KICKBASE_PASSWORD cfg)
             ++ "," ++ JSON.quote "ext" ++ ":true"
             ++ "," ++ JSON.quote "loy" ++ ":false"
             ++ "," ++ JSON.quote "rep" ++ ":{}}")%string |}.

Definition getRequest (url : string) (token : option string) : Request :=
  {| req_method := "GET";
     req_url := url;
     req_headers := [("Accept", "application/json");
                     ("Authorization", bearer token);
                     ("User-Agent", USER_AGENT)];
     req_body := None |}.

(** [loginToKickbase] *)
Definition loginToKickbase : M KickbaseLoginResponse :=
  console LOG "Logging into Kickbase..." [] ;;
  try_catch
    (response <- fetch LoginEndpoint (fetch_login w) loginRequest ;;
     console LOG "Login response: ${response.status} ${response.statusText}"
       [AInt (status response); AStr (statusText response)] ;;
     (if negb (ok response) then
        errorText <- settle (text response) ;;
        console ERROR "Login error response:" [AStr errorText] ;;
        throw (ErrorNew ("Login failed: "
                         ++ JSNumber.Z_toString (status response) ++ " "
                         ++ statusText response)%string)
      else ret tt) ;;
     loginData <- settle (json response) ;;
     g <- getGlobals ;;
     setGlobals {| authToken := tkn loginData;
                   tokenExpiry := tokenExpiry g;
                   cachedLeagues := cachedLeagues g |} ;;
     g <- getGlobals ;;
     let expiry := Date_of_string (tknex loginData) in
     setGlobals {| authToken := authToken g;
                   tokenExpiry := Some expiry;
                   cachedLeagues := cachedLeagues g |} ;;
     (match srvl loginData with
      | Some leagues =>
          g <- getGlobals ;;
          setGlobals {| authToken := authToken g;
                        tokenExpiry := tokenExpiry g;
                        cachedLeagues := leagues |} ;;
          console LOG "Cached ${cachedLeagues.length} leagues from login response"
            [AInt (Z.of_nat (List.length leagues))]
      | None => ret tt
      end) ;;
     iso <- toISOString expiry ;;
     console LOG "Login successful! Token expires: ${tokenExpiry.toISOString()}"
       [ADate iso] ;;
     ret loginData)
    (fun error =>
       console ERROR "Failed to login to Kickbase:" [AErr error] ;;
       throw error).

(** The comparison at the end of [isTokenValid], for a token and an expiry
    that are both truthy. *)
Definition expiresAfter (expiry : Date) (nowMs : Z) : bool :=
  let fiveMinutesFromNow := Date_of_time (nowMs + 5 * 60 * 1000) in
  Date_gt expiry fiveMinutesFromNow.

(** [isTokenValid] *)
Definition isTokenValid : M bool :=
  g <- getGlobals ;;
  match truthy_string (authToken g), tokenExpiry g with
  | true, Some expiry =>
      nowMs <- now ;;
      ret (expiresAfter expiry nowMs)
  | _, _ => ret false   (* [!authToken || !tokenExpiry] *)
  end.

(** [ensureAuthenticated] *)
Definition ensureAuthenticated : M unit :=
  valid <- isTokenValid ;;
  if negb valid then
    console LOG "Token invalid or expired, logging in..." [] ;;
    try_catch
      (loginToKickbase ;; ret tt)
      (fun error =>
         console ERROR "Authentication failed:" [AErr error] ;;
         throw error)
  else
    console LOG "Using existing valid token" [].

(** One iteration of the loop over [possibleEndpoints] in
    [getKickbaseLeagues]: [Some leagues] when the iteration returns from
    the function, [None] when the loop goes on. *)
Definition tryEndpoint (endpoint : string)
  : M (option (list LeagueSlot)) :=
  console LOG "Trying endpoint: ${KICKBASE_API_BASE}${endpoint}"
    [AStr (KICKBASE_API_BASE cfg); AStr endpoint] ;;
  try_catch
    (g <- getGlobals ;;
     response <- fetch LeaguesEndpoint (fetch_leagues w)
                   (getRequest (KICKBASE_API_BASE cfg ++ endpoint)%string
                      (authToken g)) ;;
     console LOG "Response status: ${response.status} ${response.statusText}"
       [AInt (status response); AStr (statusText response)] ;;
     if ok response then
       data <- settle (json response) ;;
       let leagues := leaguesOf data in
       console LOG "Found ${leagues.length} leagues from ${endpoint}"
         [AInt (Z.of_nat (List.length leagues)); AStr endpoint] ;;
       if (0 <? List.length leagues)%nat then
         g <- getGlobals ;;
         setGlobals {| authToken := authToken g;
                       tokenExpiry := tokenExpiry g;
                       cachedLeagues := leagues |} ;;
         ret (Some leagues)
       else ret None
     else
       errorText <- settle (text response) ;;
       console LOG "Endpoint ${endpoint} failed: ${response.status} - ${errorText}"
         [AStr endpoint; AInt (status response); AStr errorText] ;;
       ret None)
    (fun error =>
       console LOG "Error trying endpoint ${endpoint}:" [AErr error] ;;
       ret None).

Fixpoint tryEndpoints (endpoints : list string) : M (list LeagueSlot) :=
  match endpoints with
  | [] => throw (ErrorNew "Could not fetch leagues from any known endpoint")
  | endpoint :: rest =>
      r <- tryEndpoint endpoint ;;
      match r with
      | Some leagues => ret leagues
      | None => tryEndpoints rest
      end
  end.

(** [getKickbaseLeagues] *)
Definition getKickbaseLeagues : M (list LeagueSlot) :=
  ensureAuthenticated ;;
  g <- getGlobals ;;
  if (0 <? List.length (cachedLeagues g))%nat then
    console LOG "Using ${cachedLeagues.length} cached leagues"
      [AInt (Z.of_nat (List.length (cachedLeagues g)))] ;;
    ret (cachedLeagues g)
  else
    tryEndpoints possibleEndpoints.

(** [getKickbaseBudget] *)
Definition getKickbaseBudget : M Z :=
  console LOG "Fetching Kickbase budget..." [] ;;
  try_catch
    (ensureAuthenticated ;;
     leagues <- getKickbaseLeagues ;;
     (if (List.length leagues =? 0)%nat
      then throw (ErrorNew "No leagues found for user")
      else ret tt) ;;
     match nth_error leagues 0 with
     | Some (Some primaryLeague) =>
         console LOG "Using league: ${primaryLeague.name} (ID: ${primaryLeague.id})"
           [AStr (league_name primaryLeague); AStr (league_id primaryLeague)] ;;
         g <- getGlobals ;;
         response <- fetch BudgetEndpoint (fetch_budget w)
                       (getRequest
                          (KICKBASE_API_BASE cfg ++ "/v4/leagues/"
                           ++ league_id primaryLeague ++ "/me/budget")%string
                          (authToken g)) ;;
         (if negb (ok response) then
            throw (ErrorNew ("Failed to get budget data: "
                             ++ JSNumber.Z_toString (status response) ++ " "
                             ++ statusText response)%string)
          else ret tt) ;;
         budgetData <- settle (json response) ;;
         let budget := number_or (b budgetData) 0 in
         console LOG "Current budget: ${(budget / 1_000_000).toFixed(2)}M"
           [AStr (JSNumber.toFixed
                    (JSNumber.div (JSNumber.of_Z budget)
                       (JSNumber.of_Z 1000000)) 2)] ;;
         ret budget
     | _ =>            (* [!primaryLeague]: [undefined] or [null] *)
         throw (ErrorNew "No primary league found")
     end)
    (fun error =>
       console ERROR "Failed to fetch budget:" [AErr error] ;;
       throw error).

(** The message handed to [client.messages.create] for a budget. *)
Definition alertMessage (budget : Z) : MessageRequest :=
  {| msg_from := TWILIO_WHATSAPP_NUMBER cfg;
     msg_contentSid := CONTENT_SID cfg;
     msg_contentVariables :=
       JSON.stringify [("1", formatMillions budget); ("2", "20:30")];
     msg_to := YOUR_PHONE_NUMBER cfg |}.

(** [await client.messages.create(m)] *)
Definition messagesCreate (m : MessageRequest) : M string :=
  fun st =>
    match messages_create w (tick st) m with
    | inl e => (Throw (Rejected e), next st, [ETwilio m])
    | inr sid => (Return sid, next st, [ETwilio m])
    end.

(** [sendWhatsappAlert] *)
Definition sendWhatsappAlert (budget : Z) : M unit :=
  console LOG "Budget is negative! Sending alert for: ${budget / 1_000_000}M"
    [ANum (JSNumber.div (JSNumber.of_Z budget) (JSNumber.of_Z 1000000))] ;;
  try_catch
    (sid <- messagesCreate (alertMessage budget) ;;
     console LOG "Message sent successfully. SID: ${message.sid}" [AStr sid])
    (fun error => console ERROR "Error sending message:" [AErr error]).

(** The start of [runCheck]: the Berlin time is read and logged. *)
Definition runCheckBanner : M unit :=
  t <- now ;;
  console LOG
    "Checking Kickbase budget against threshold of ${KICKBASE_BUDGET_THRESHOLD} at ${berlinTime} (Berlin time)"
    [AInt KICKBASE_BUDGET_THRESHOLD; ADate (Date_of_time t)].

(** [runCheck] *)
Definition runCheck : M unit :=
  runCheckBanner ;;
  try_catch
    (currentBudget <- getKickbaseBudget ;;
     if currentBudget <? KICKBASE_BUDGET_THRESHOLD then
       console WARN
         "ALERT: Budget is negative (${currentBudget}). Sending notification!"
         [AInt currentBudget] ;;
       sendWhatsappAlert currentBudget
     else
       console LOG "Budget is positive (${currentBudget}). No alert necessary."
         [AInt currentBudget])
    (fun error =>
       console ERROR "Fatal error during budget check:" [AErr error]).

(** The state in which [runCheck] calls [getKickbaseBudget]. *)
Definition budgetCallState (st0 : Machine) : Machine :=
  final (runCheckBanner st0).

(** The [if] of [runCheck], the spec's [checkAndAlert]. *)
Definition checkAndAlert (currentBudget : Z) : M unit :=
  if currentBudget <? KICKBASE_BUDGET_THRESHOLD then
    console WARN
      "ALERT: Budget is negative (${currentBudget}). Sending notification!"
      [AInt currentBudget] ;;
    sendWhatsappAlert currentBudget
  else
    console LOG "Budget is positive (${currentBudget}). No alert necessary."
      [AInt currentBudget].

End Script.

(** ** Observations on a trace *)

Fixpoint collect {B} (f : Event -> option B) (evs : list Event) : list B :=
  match evs with
  | [] => []
  | e :: rest =>
      match f e with
      | Some x => x :: collect f rest
      | None => collect f rest
      end
  end.

Definition asFetch (e : Event) : option (Endpoint * Request) :=
  match e with EFetch ep req => Some (ep, req) | _ => None end.

Definition asBudgetFetch (e : Event) : option Request :=
  match e with EFetch BudgetEndpoint req => Some req | _ => None end.

Definition asTwilio (e : Event) : option MessageRequest :=
  match e with ETwilio m => Some m | _ => None end.

Definition asFatal (e : Event) : option JsError :=
  match e with
  | EConsole ERROR template [AErr err] =>
      if String.eqb template "Fatal error during budget check:"
      then Some err else None
  | _ => None
  end.

(** The requests sent to the Kickbase API, in order. *)
Definition networkCalls : list Event -> list (Endpoint * Request) :=
  collect asFetch.

(** The requests sent to the budget endpoint. *)
Definition budgetCalls : list Event -> list Request := collect asBudgetFetch.

(** The messages handed to the notification channel, in order. *)
Definition notifications : list Event -> list MessageRequest :=
  collect asTwilio.

(** The errors reported by the [catch] of the run driver. *)
Definition fatalErrors : list Event -> list JsError := collect asFatal.

(** ** Sample environments *)

Module Sample.

Definition config : Config :=
  {| TWILIO_WHATSAPP_NUMBER := "whatsapp:+14155238886";
     YOUR_PHONE_NUMBER := "whatsapp:+491700000000";
     CONTENT_SID := "HX0001";
     KICKBASE_EMAIL := "manager@example.org";
     KICKBASE_PASSWORD := "secret";
     KICKBASE_API_BASE := "https://api.kickbase.com" |}.

Definition league : KickbaseLeague :=
  {| league_id := "4711";
     league_name := "Kreisliga";
     league_creator := "manager";
     league_creatorId := "1";
     league_creation := "2024-08-01T10:00:00Z";
     league_maxMembers := 18;
     league_adminCount := 1;
     league_memberCount := 12;
     league_isCommissioner := true;
     league_cpi := "1" |}.

Definition respond {T} (code : Z) (reason body : string) (parsed : HostError + T)
  : Response T :=
  {| status := code; statusText := reason; text := inr body; json := parsed |}.

Definition okJson {T} (body : T) : HostError + Response T :=
  inr (respond 200 "OK" "" (inr body)).

(** 2024-01-01T12:00:00Z and one hour later, in milliseconds. *)
Definition noon : Z := 1704110400000.
Definition oneHourLater : Z := noon + 3600000.

(** A host whose clock stands at [noon] and whose date parser knows the
    one expiry string the sample server sends. *)
Definition world
  (login : HostError + Response KickbaseLoginResponse)
  (leagues : HostError + Response LeaguesData)
  (budget : HostError + Response BudgetData)
  (twilio : HostError + string) : World :=
  {| Date_now := fun _ => noon;
     Date_parse := fun s =>
       if String.eqb s "2024-01-01T13:00:00Z" then Some oneHourLater else None;
     fetch_login := fun _ _ => login;
     fetch_leagues := fun _ _ => leagues;
     fetch_budget := fun _ _ => budget;
     messages_create := fun _ _ => twilio |}.

Definition loginBody (leagues : option (list LeagueSlot))
  : KickbaseLoginResponse :=
  {| tkn := Some "jwt-token"; tknex := "2024-01-01T13:00:00Z";
     srvl := leagues |}.

Definition budgetBody (v : Z) : BudgetData :=
  {| pbas := None; b := Some v; bs := None |}.

(** Login carries the league list; the budget endpoint answers [v]. *)
Definition inlineLeagues (v : Z) (twilio : HostError + string) : World :=
  world (okJson (loginBody (Some [Some league])))
        (inl "leagues endpoint not expected")
        (okJson (budgetBody v))
        twilio.

Definition start : Machine := {| globals := initialGlobals; tick := 0 |}.

Definition otherLeague : KickbaseLeague :=
  {| league_id := "0815";
     league_name := "Bezirksliga";
     league_creator := "someone";
     league_creatorId := "2";
     league_creation := "2025-08-01T10:00:00Z";
     league_maxMembers := 10;
     league_adminCount := 1;
     league_memberCount := 4;
     league_isCommissioner := false;
     league_cpi := "1" |}.

(** A warm process: logged in an hour ahead, one league cached. *)
Definition loggedIn : Machine :=
  {| globals := {| authToken := Some "jwt-token";
                   tokenExpiry := Some {| timeValue := Some oneHourLater |};
                   cachedLeagues := [Some league] |};
     tick := 0 |}.

(** The server hands out an empty token, good for an hour. *)
Definition blankToken : World :=
  world (okJson {| tkn := Some ""; tknex := "2024-01-01T13:00:00Z";
                   srvl := Some [Some league] |})
        (inl "leagues endpoint not expected")
        (okJson (budgetBody 5000000))
        (inr "SM1").

(** The server hands out tokens that expired a second before [noon]; the
    first login lists [league], every later one [otherLeague]. *)
Definition shortLived : World :=
  {| Date_now := fun _ => noon;
     Date_parse := fun s =>
       if String.eqb s "2024-01-01T11:59:59Z" then Some (noon - 1000) else None;
     fetch_login := fun t _ =>
       okJson {| tkn := Some "jwt-token"; tknex := "2024-01-01T11:59:59Z";
                 srvl := Some [Some (if (t =? 0)%nat then league
                                     else otherLeague)] |};
     fetch_leagues := fun _ _ => inl "leagues endpoint not expected";
     fetch_budget := fun _ _ => okJson (budgetBody 5000000);
     messages_create := fun _ _ => inr "SM1" |}.

(** Login answers with another league list. *)
Definition freshLeagues : World :=
  world (okJson (loginBody (Some [Some otherLeague])))
        (inl "leagues endpoint not expected")
        (okJson (budgetBody 5000000))
        (inr "SM1").

(** Scenario B: no league list at login, an empty one from the endpoint. *)
Definition noLeagues : World :=
  world (okJson (loginBody None))
        (okJson (LeaguesObject (Some [])))
        (okJson (budgetBody 5000000))
        (inr "SM1").

(** The server rejects the credentials. *)
Definition loginRejected : World :=
  world (inr (respond 401 "Unauthorized" "bad credentials" (inl "not JSON")))
        (inl "leagues endpoint not expected")
        (inl "budget endpoint not expected")
        (inr "SM1").

(** The server answers the login with status 500 and the connection breaks
    while the body is read. *)
Definition unreadableBody : World :=
  world (inr {| status := 500; statusText := "Internal Server Error";
                text := inl "body stream aborted";
                json := inl "body stream aborted" |})
        (inl "leagues endpoint not expected")
        (inl "budget endpoint not expected")
        (inr "SM1").

(** No league list at login; the leagues endpoint answers [{leagues:
    [null]}]. *)
Definition nullLeague : World :=
  world (okJson (loginBody None))
        (okJson (LeaguesObject (Some [None])))
        (okJson (budgetBody 5000000))
        (inr "SM1").

(** The login answer carries no token ([tkn] is null); it lists a league. *)
Definition nullToken : World :=
  world (okJson {| tkn := None; tknex := "2024-01-01T13:00:00Z";
                   srvl := Some [Some league] |})
        (inl "leagues endpoint not expected")
        (okJson (budgetBody 5000000))
        (inr "SM1").

(** Login succeeds but its expiry does not parse. *)
Definition badExpiry : World :=
  world (okJson {| tkn := Some "jwt-token"; tknex := "soon"; srvl := None |})
        (inl "leagues endpoint not expected")
        (inl "budget endpoint not expected")
        (inr "SM1").

(** No league list at login; the leagues endpoint answers a bare array. *)
Definition bareLeagues : World :=
  world (okJson (loginBody None))
        (okJson (LeaguesArray [Some league; Some otherLeague]))
        (okJson (budgetBody 5000000))
        (inr "SM1").

(** Logged in an hour ahead, no league cached yet. *)
Definition loggedInNoCache : Machine :=
  {| globals := {| authToken := Some "jwt-token";
                   tokenExpiry := Some {| timeValue := Some oneHourLater |};
                   cachedLeagues := [] |};
     tick := 0 |}.

End Sample.


(** ** Properties of computations *)

(** *** Computations that emit no event of a given kind *)

Definition quiet {A B} (f : Event -> option B) (m : M A) : Prop :=
  forall st, collect f (trace (m st)) = [].

(** *** Values a computation can return, errors it can throw *)

Definition returns {A} (m : M A) (P : A -> Prop) : Prop :=
  forall st a, outcome (m st) = Return a -> P a.

Definition throwsOnly {A} (m : M A) (E : JsError -> Prop) : Prop :=
  forall st e, outcome (m st) = Throw e -> E e.

(** *** Computations that cannot throw *)

Definition total {A} (m : M A) : Prop :=
  forall st, exists a, outcome (m st) = Return a.

(** ** Specification-side definitions *)

(** What [isTokenValid] computes from the two session variables and the
    clock reading. *)
Definition sessionValidAt (g : Globals) (nowMs : Z) : bool :=
  match truthy_string (authToken g), tokenExpiry g with
  | true, Some expiry => expiresAfter expiry nowMs
  | _, _ => false
  end.

(** The validity predicate as the specification words it:
    [token != null && expiry > now + 5min]. *)
Definition specValid (token : option string) (expiry : option Date)
  (nowMs : Z) : Prop :=
  token <> None /\
  exists t, expiry = Some {| timeValue := Some t |} /\ nowMs + 5 * 60 * 1000 < t.

(** A login attempt that ends in a transport failure or in a non-success
    HTTP status. *)
Definition loginFailed (res : HostError + Response KickbaseLoginResponse)
  : Prop :=
  match res with
  | inl _ => True
  | inr response => ok response = false
  end.

(** The text an error value carries: the message of an [Error], the
    environment's own text for a rejection. *)
Definition errorMessage (e : JsError) : string :=
  match e with
  | ErrorNew message => message
  | RangeErrorInvalidTime => "Invalid time value"
  | Rejected h => h
  end.

(** C5 as the specification words it: the error carries a piece of the
    upstream answer (its status, its body) when that piece occurs in the
    error's text. *)
Definition carries (e : JsError) (piece : string) : bool :=
  match String.index 0 piece (errorMessage e) with
  | Some _ => true
  | None => false
  end.

(** Scenario B, the server side: every login succeeds and carries no league
    list; the leagues endpoint answers with a wrapped empty sequence. *)
Definition loginWithoutLeagues (w : World) : Prop :=
  forall t req, exists response body time,
    fetch_login w t req = inr response /\ ok response = true /\
    json response = inr body /\ srvl body = None /\
    Date_parse w (tknex body) = Some time /\ time_value time.

Definition leaguesAnswerEmpty (w : World) : Prop :=
  forall t req, exists response,
    fetch_leagues w t req = inr response /\ ok response = true /\
    json response = inr (LeaguesObject (Some [])).

(** The errors of the two defensive checks of [getKickbaseBudget]. *)
Definition defensive (e : JsError) : Prop :=
  e = ErrorNew "No leagues found for user" \/
  e = ErrorNew "No primary league found".

Definition safe (e : JsError) : Prop := ~ defensive e.

(** The request [getKickbaseBudget] sends for a league, with the token it
    finds stored. *)
Definition budgetRequest (cfg : Config) (league : KickbaseLeague)
  (token : option string) : Request :=
  getRequest (KICKBASE_API_BASE cfg ++ "/v4/leagues/" ++ league_id league
              ++ "/me/budget")%string token.

(** What [getKickbaseBudget] makes of the answer of the budget endpoint. *)
Definition budgetOutcome (res : HostError + Response BudgetData) : Outcome Z :=
  match res with
  | inl e => Throw (Rejected e)
  | inr response =>
      if ok response then
        match json response with
        | inl e => Throw (Rejected e)
        | inr budgetData => Return (number_or (b budgetData) 0)
        end
      else
        Throw (ErrorNew ("Failed to get budget data: "
                         ++ JSNumber.Z_toString (status response) ++ " "
                         ++ statusText response)%string)
  end.

(** A budget value that an ok answer of the budget endpoint accounts for. *)
Definition reported (w : World) (budget : Z) : Prop :=
  exists t req response budgetData,
    fetch_budget w t req = inr response /\ ok response = true /\
    json response = inr budgetData /\ budget = number_or (b budgetData) 0.

Definition asLoginFetch (e : Event) : option Request :=
  match e with EFetch LoginEndpoint req => Some req | _ => None end.

Definition asLeaguesFetch (e : Event) : option Request :=
  match e with EFetch LeaguesEndpoint req => Some req | _ => None end.

(** The requests sent to the login endpoint and to the leagues endpoint. *)
Definition loginCalls : list Event -> list Request := collect asLoginFetch.
Definition leaguesCalls : list Event -> list Request := collect asLeaguesFetch.

(** Computations that emit at most [n] events of a given kind. *)
Definition bounded {A B} (f : Event -> option B) (n : nat) (m : M A) : Prop :=
  forall st, (List.length (collect f (trace (m st))) <= n)%nat.

(** Characters that [JSON.quote] copies unchanged. *)
Definition plainChar (c : ascii) : bool :=
  let n := nat_of_ascii c in
  (32 <=? n)%nat && negb (n =? 34)%nat && negb (n =? 92)%nat.

Fixpoint plain (s : string) : bool :=
  match s with
  | EmptyString => true
  | String c s' => plainChar c && plain s'
  end.

(** A token that a login answer handed out. *)
Definition issued (w : World) (token : string) : Prop :=
  exists t req response body,
    fetch_login w t req = inr response /\ ok response = true /\
    json response = inr body /\ tkn body = Some token.

(** The tokens of a run that starts from the variables [g0]: the one stored
    at the start, and those handed out by login answers. *)
Definition knownToken (w : World) (g0 : Globals) (token : string) : Prop :=
  authToken g0 = Some token \/ issued w token.

(** A stored token of a given provenance. *)
Definition holdsToken (P : string -> Prop) (st : Machine) : Prop :=
  exists token, authToken (globals st) = Some token /\ P token.

(** An event that is not a tokenless request: a request to the leagues or
    budget endpoint is a GET whose Authorization header was built from a
    token of the given provenance. *)
Definition authorizedBy (P : string -> Prop) (e : Event) : Prop :=
  match e with
  | EFetch LoginEndpoint _ => True
  | EFetch _ req =>
      exists url token, req = getRequest url (Some token) /\ P token
  | _ => True
  end.

(** Computations that, started with such a token stored, keep one stored
    and emit authorized events only. *)
Definition keepsToken (P : string -> Prop) {A} (m : M A) : Prop :=
  forall st,
    holdsToken P st ->
    holdsToken P (final (m st)) /\ Forall (authorizedBy P) (trace (m st)).

(** ** Reasoning about the monad *)

Lemma collect_app {B} (f : Event -> option B) (xs ys : list Event) :
  collect f (xs ++ ys) = collect f xs ++ collect f ys.
Proof.
  induction xs as [|e xs IH]; simpl; [reflexivity|].
  destruct (f e); simpl; now rewrite IH.
Qed.

Section MonadFacts.

Context {A B : Type}.
Variables (m : M A) (k : A -> M B) (h : JsError -> M A) (st : Machine).

Lemma bind_Return a :
  outcome (m st) = Return a ->
  bind m k st =
    (outcome (k a (final (m st))), final (k a (final (m st))),
     trace (m st) ++ trace (k a (final (m st)))).
Proof.
  unfold bind, outcome, final, trace.
  destruct (m st) as [[o st1] ev1]; simpl; intros ->.
  now destruct (k a st1) as [[o2 st2] ev2].
Qed.

Lemma bind_Throw e :
  outcome (m st) = Throw e ->
  bind m k st = (Throw e, final (m st), trace (m st)).
Proof.
  unfold bind, outcome, final, trace.
  destruct (m st) as [[o st1] ev1]; simpl; now intros ->.
Qed.

Lemma try_Return a :
  outcome (m st) = Return a ->
  try_catch m h st = (Return a, final (m st), trace (m st)).
Proof.
  unfold try_catch, outcome, final, trace.
  destruct (m st) as [[o st1] ev1]; simpl; now intros ->.
Qed.

Lemma try_Throw e :
  outcome (m st) = Throw e ->
  try_catch m h st =
    (outcome (h e (final (m st))), final (h e (final (m st))),
     trace (m st) ++ trace (h e (final (m st)))).
Proof.
  unfold try_catch, outcome, final, trace.
  destruct (m st) as [[o st1] ev1]; simpl; intros ->.
  now destruct (h e st1) as [[o2 st2] ev2].
Qed.

End MonadFacts.

Lemma trace_tuple {A} (o : Outcome A) st evs : trace (o, st, evs) = evs.
Proof. reflexivity. Qed.

Lemma outcome_tuple {A} (o : Outcome A) st evs : outcome (o, st, evs) = o.
Proof. reflexivity. Qed.

Lemma final_tuple {A} (o : Outcome A) st evs : final (o, st, evs) = st.
Proof. reflexivity. Qed.

Lemma outcome_cases {A} (o : Outcome A) :
  (exists a, o = Return a) \/ (exists e, o = Throw e).
Proof. destruct o; eauto. Qed.

Section Rules.

Context {A B C : Type}.
Variable f : Event -> option C.

Lemma quiet_ret (a : A) : quiet f (ret a).
Proof. now intros st. Qed.

Lemma quiet_throw e : quiet f (@throw A e).
Proof. now intros st. Qed.

Lemma quiet_bind (m : M A) (k : A -> M B) :
  quiet f m -> (forall a, quiet f (k a)) -> quiet f (bind m k).
Proof.
  intros Hm Hk st.
  destruct (outcome_cases (outcome (m st))) as [[a Ha]|[e He]].
  - rewrite (bind_Return m k st a Ha); unfold trace at 1; simpl.
    now rewrite collect_app, Hm, Hk.
  - rewrite (bind_Throw m k st e He); unfold trace at 1; simpl. apply Hm.
Qed.

Lemma quiet_try (m : M A) (h : JsError -> M A) :
  quiet f m -> (forall e, quiet f (h e)) -> quiet f (try_catch m h).
Proof.
  intros Hm Hh st.
  destruct (outcome_cases (outcome (m st))) as [[a Ha]|[e He]].
  - rewrite (try_Return m h st a Ha); unfold trace at 1; simpl. apply Hm.
  - rewrite (try_Throw m h st e He); unfold trace at 1; simpl.
    now rewrite collect_app, Hm, Hh.
Qed.

Lemma quiet_emit ev : f ev = None -> quiet f (emit ev).
Proof. intros H st; simpl. now rewrite H. Qed.

Lemma quiet_console lvl template args :
  f (EConsole lvl template args) = None -> quiet f (console lvl template args).
Proof. apply quiet_emit. Qed.

Lemma quiet_getGlobals : quiet f getGlobals.
Proof. now intros st. Qed.

Lemma quiet_setGlobals g : quiet f (setGlobals g).
Proof. now intros st. Qed.

Lemma quiet_settle (r : HostError + A) : quiet f (settle r).
Proof. destruct r; now intros st. Qed.

Lemma quiet_now w : quiet f (now w).
Proof. now intros st. Qed.

Lemma quiet_toISOString d : quiet f (toISOString d).
Proof. unfold toISOString; destruct (timeValue d); now intros st. Qed.

Lemma quiet_fetch ep (oracle : nat -> Request -> HostError + Response A) req :
  f (EFetch ep req) = None -> quiet f (fetch ep oracle req).
Proof.
  intros H st; unfold fetch.
  destruct (oracle (tick st) req); simpl; now rewrite H.
Qed.

Lemma returns_bind (m : M A) (k : A -> M B) (P : B -> Prop) :
  (forall a, returns (k a) P) -> returns (bind m k) P.
Proof.
  intros Hk st x.
  destruct (outcome_cases (outcome (m st))) as [[a Ha]|[e He]].
  - rewrite (bind_Return m k st a Ha); unfold outcome at 1; simpl. apply Hk.
  - rewrite (bind_Throw m k st e He); unfold outcome; simpl. discriminate.
Qed.

Lemma returns_ret (a : A) (P : A -> Prop) : P a -> returns (ret a) P.
Proof. intros H st x; unfold outcome; simpl. now intros [= <-]. Qed.

Lemma returns_throw e (P : A -> Prop) : returns (throw e) P.
Proof. intros st x; unfold outcome; simpl. discriminate. Qed.

Lemma throwsOnly_bind (m : M A) (k : A -> M B) (P : A -> Prop)
  (E : JsError -> Prop) :
  throwsOnly m E -> returns m P -> (forall a, P a -> throwsOnly (k a) E) ->
  throwsOnly (bind m k) E.
Proof.
  intros Hm HP Hk st x.
  destruct (outcome_cases (outcome (m st))) as [[a Ha]|[e He]].
  - rewrite (bind_Return m k st a Ha); unfold outcome at 1; simpl.
    apply Hk. eapply HP, Ha.
  - rewrite (bind_Throw m k st e He); unfold outcome at 1; simpl.
    intros [= <-]. eapply Hm, He.
Qed.

Lemma throwsOnly_try (m : M A) (h : JsError -> M A) (E : JsError -> Prop) :
  throwsOnly m E -> (forall e, E e -> throwsOnly (h e) E) ->
  throwsOnly (try_catch m h) E.
Proof.
  intros Hm Hh st x.
  destruct (outcome_cases (outcome (m st))) as [[a Ha]|[e He]].
  - rewrite (try_Return m h st a Ha); unfold outcome; simpl. discriminate.
  - rewrite (try_Throw m h st e He); unfold outcome at 1; simpl.
    apply Hh. eapply Hm, He.
Qed.

Lemma throwsOnly_total (m : M A) (E : JsError -> Prop) :
  total m -> throwsOnly m E.
Proof. intros Hm st e He. destruct (Hm st) as [a Ha]. congruence. Qed.

Lemma throwsOnly_throw e (E : JsError -> Prop) : E e -> throwsOnly (@throw A e) E.
Proof. intros H st x; unfold outcome; simpl. now intros [= <-]. Qed.

Lemma total_ret (a : A) : total (ret a).
Proof. intros st; now exists a. Qed.

Lemma total_bind (m : M A) (k : A -> M B) :
  total m -> (forall a, total (k a)) -> total (bind m k).
Proof.
  intros Hm Hk st. destruct (Hm st) as [a Ha].
  rewrite (bind_Return m k st a Ha); unfold outcome at 1; simpl. apply Hk.
Qed.

Lemma total_try (m : M A) (h : JsError -> M A) :
  (forall e, total (h e)) -> total (try_catch m h).
Proof.
  intros Hh st.
  destruct (outcome_cases (outcome (m st))) as [[a Ha]|[e He]].
  - rewrite (try_Return m h st a Ha); unfold outcome; simpl. eauto.
  - rewrite (try_Throw m h st e He); unfold outcome at 1; simpl. apply Hh.
Qed.

End Rules.

Lemma returns_any {A} (m : M A) : returns m (fun _ => True).
Proof. now intros st a _. Qed.

Lemma total_emit ev : total (emit ev).
Proof. intros st; now exists tt. Qed.

Lemma total_console lvl template args : total (console lvl template args).
Proof. apply total_emit. Qed.

Lemma total_getGlobals : total getGlobals.
Proof. intros st; now exists (globals st). Qed.

Lemma total_setGlobals g : total (setGlobals g).
Proof. intros st; now exists tt. Qed.

Lemma total_now w : total (now w).
Proof. intros st; now eexists. Qed.

Ltac quiet_step known :=
  first
    [ solve [known]
    | apply quiet_bind; [|intro]
    | apply quiet_try; [|intro]
    | apply quiet_ret
    | apply quiet_throw
    | apply quiet_getGlobals
    | apply quiet_setGlobals
    | apply quiet_settle
    | apply quiet_now
    | apply quiet_toISOString
    | match goal with
      | |- quiet _ (if ?c then _ else _) => destruct c
      | |- quiet _ (match ?x with _ => _ end) => destruct x
      end ].

(** ** Which events each function of the script can emit *)

Section Emissions.

Variable cfg : Config.
Variable w : World.

Context {C : Type}.
Variable f : Event -> option C.

(** [f] selects neither the console lines written below the run driver nor
    the calls to the login and leagues endpoints. *)
Hypothesis f_console : forall lvl template args,
  String.eqb template "Fatal error during budget check:" = false ->
  f (EConsole lvl template args) = None.
Hypothesis f_login : forall req, f (EFetch LoginEndpoint req) = None.
Hypothesis f_leagues : forall req, f (EFetch LeaguesEndpoint req) = None.

Ltac basic :=
  first [ apply quiet_console; apply f_console; reflexivity
        | apply quiet_fetch; first [apply f_login | apply f_leagues]
        | assumption ].

Lemma quiet_loginToKickbase : quiet f (loginToKickbase cfg w).
Proof. unfold loginToKickbase. repeat quiet_step basic. Qed.

Lemma quiet_isTokenValid : quiet f (isTokenValid w).
Proof. unfold isTokenValid. repeat quiet_step basic. Qed.

Lemma quiet_ensureAuthenticated : quiet f (ensureAuthenticated cfg w).
Proof.
  unfold ensureAuthenticated.
  repeat quiet_step ltac:(first [basic | apply quiet_isTokenValid
                                 | apply quiet_loginToKickbase]).
Qed.

Lemma quiet_tryEndpoint endpoint : quiet f (tryEndpoint cfg w endpoint).
Proof. unfold tryEndpoint. repeat quiet_step basic. Qed.

Lemma quiet_tryEndpoints endpoints : quiet f (tryEndpoints cfg w endpoints).
Proof.
  induction endpoints as [|endpoint rest IH]; simpl.
  - apply quiet_throw.
  - repeat quiet_step ltac:(first [basic | apply quiet_tryEndpoint]).
Qed.

Lemma quiet_getKickbaseLeagues : quiet f (getKickbaseLeagues cfg w).
Proof.
  unfold getKickbaseLeagues.
  repeat quiet_step ltac:(first [basic | apply quiet_ensureAuthenticated
                                 | apply quiet_tryEndpoints]).
Qed.

Lemma quiet_getKickbaseBudget :
  (forall req, f (EFetch BudgetEndpoint req) = None) ->
  quiet f (getKickbaseBudget cfg w).
Proof.
  intros f_budget. unfold getKickbaseBudget.
  repeat quiet_step ltac:(first [basic | apply quiet_ensureAuthenticated
                                 | apply quiet_getKickbaseLeagues
                                 | apply quiet_fetch; apply f_budget]).
Qed.

Lemma quiet_runCheckBanner : quiet f (runCheckBanner w).
Proof. unfold runCheckBanner. repeat quiet_step basic. Qed.

End Emissions.

(** ** The run driver *)

Section RunDriver.

Variable cfg : Config.
Variable w : World.

Lemma runCheck_unfold :
  runCheck cfg w =
  (runCheckBanner w ;;
   try_catch
     (currentBudget <- getKickbaseBudget cfg w ;; checkAndAlert cfg w currentBudget)
     (fun error =>
        console ERROR "Fatal error during budget check:" [AErr error])).
Proof. reflexivity. Qed.

Lemma sendWhatsappAlert_run budget st :
  outcome (sendWhatsappAlert cfg w budget st) = Return tt /\
  final (sendWhatsappAlert cfg w budget st) = next st /\
  notifications (trace (sendWhatsappAlert cfg w budget st))
  = [alertMessage cfg budget] /\
  fatalErrors (trace (sendWhatsappAlert cfg w budget st)) = [].
Proof.
  unfold sendWhatsappAlert, bind, try_catch, messagesCreate, console, emit.
  destruct (messages_create w (tick st) (alertMessage cfg budget));
    repeat split; reflexivity.
Qed.

Lemma checkAndAlert_run budget st :
  outcome (checkAndAlert cfg w budget st) = Return tt /\
  globals (final (checkAndAlert cfg w budget st)) = globals st /\
  notifications (trace (checkAndAlert cfg w budget st))
  = (if budget <? KICKBASE_BUDGET_THRESHOLD then [alertMessage cfg budget]
     else []) /\
  fatalErrors (trace (checkAndAlert cfg w budget st)) = [].
Proof.
  unfold checkAndAlert.
  destruct (budget <? KICKBASE_BUDGET_THRESHOLD).
  - destruct (sendWhatsappAlert_run budget st) as (Ho & Hf & Hn & He).
    unfold bind, console, emit; simpl.
    unfold outcome, final, trace in *.
    destruct (sendWhatsappAlert cfg w budget st) as [[o st'] evs]; simpl in *.
    subst. repeat split; assumption.
  - repeat split; reflexivity.
Qed.

(** A run whose budget resolution returns. *)
Lemma runCheck_resolved st0 budget :
  outcome (getKickbaseBudget cfg w (budgetCallState w st0)) = Return budget ->
  let st2 := final (getKickbaseBudget cfg w (budgetCallState w st0)) in
  runCheck cfg w st0 =
    (Return tt, final (checkAndAlert cfg w budget st2),
     trace (runCheckBanner w st0)
     ++ trace (getKickbaseBudget cfg w (budgetCallState w st0))
     ++ trace (checkAndAlert cfg w budget st2)).
Proof.
  intros Hb st2. rewrite runCheck_unfold.
  rewrite (bind_Return _ _ st0 tt) by reflexivity.
  fold (budgetCallState w st0).
  set (body := bind (getKickbaseBudget cfg w) _).
  assert (Hbody : body (budgetCallState w st0) =
                  (Return tt, final (checkAndAlert cfg w budget st2),
                   trace (getKickbaseBudget cfg w (budgetCallState w st0))
                   ++ trace (checkAndAlert cfg w budget st2))).
  { unfold body. rewrite (bind_Return _ _ _ budget Hb). fold st2.
    now rewrite (proj1 (checkAndAlert_run budget st2)). }
  rewrite (try_Return _ _ _ tt) by now rewrite Hbody.
  now rewrite Hbody.
Qed.

(** A run whose budget resolution throws. *)
Lemma runCheck_failed st0 e :
  outcome (getKickbaseBudget cfg w (budgetCallState w st0)) = Throw e ->
  runCheck cfg w st0 =
    (Return tt, final (getKickbaseBudget cfg w (budgetCallState w st0)),
     trace (runCheckBanner w st0)
     ++ trace (getKickbaseBudget cfg w (budgetCallState w st0))
     ++ [EConsole ERROR "Fatal error during budget check:" [AErr e]]).
Proof.
  intros Hb. rewrite runCheck_unfold.
  rewrite (bind_Return _ _ st0 tt) by reflexivity.
  fold (budgetCallState w st0).
  set (body := bind (getKickbaseBudget cfg w) _).
  assert (Hbody : body (budgetCallState w st0) =
                  (Throw e, final (getKickbaseBudget cfg w (budgetCallState w st0)),
                   trace (getKickbaseBudget cfg w (budgetCallState w st0)))).
  { unfold body. now rewrite (bind_Throw _ _ _ e Hb). }
  rewrite (try_Throw _ _ _ e) by now rewrite Hbody.
  now rewrite Hbody.
Qed.

Lemma asTwilio_console lvl template args :
  String.eqb template "Fatal error during budget check:" = false ->
  asTwilio (EConsole lvl template args) = None.
Proof. reflexivity. Qed.

Lemma asFatal_console lvl template args :
  String.eqb template "Fatal error during budget check:" = false ->
  asFatal (EConsole lvl template args) = None.
Proof.
  intros H. unfold asFatal.
  destruct lvl; try reflexivity.
  destruct args as [|[] [|]]; try reflexivity. now rewrite H.
Qed.

Lemma asBudgetFetch_console lvl template args :
  String.eqb template "Fatal error during budget check:" = false ->
  asBudgetFetch (EConsole lvl template args) = None.
Proof. reflexivity. Qed.

(** Budget resolution never touches the notification channel. *)
Lemma getKickbaseBudget_no_notification st :
  notifications (trace (getKickbaseBudget cfg w st)) = [].
Proof.
  apply (quiet_getKickbaseBudget cfg w asTwilio asTwilio_console);
    reflexivity.
Qed.

(** Budget resolution never writes the run driver's fatal line. *)
Lemma getKickbaseBudget_no_fatal st :
  fatalErrors (trace (getKickbaseBudget cfg w st)) = [].
Proof.
  apply (quiet_getKickbaseBudget cfg w asFatal asFatal_console);
    reflexivity.
Qed.

End RunDriver.

(** ** Claims about the run driver and the alert dispatcher *)

Section RunClaims.

Variable cfg : Config.
Variable w : World.

Lemma notifications_runCheck_resolved st0 budget :
  outcome (getKickbaseBudget cfg w (budgetCallState w st0)) = Return budget ->
  notifications (trace (runCheck cfg w st0))
  = (if budget <? KICKBASE_BUDGET_THRESHOLD then [alertMessage cfg budget]
     else []).
Proof.
  intros Hb. rewrite (runCheck_resolved cfg w st0 budget Hb).
  rewrite trace_tuple. unfold notifications.
  rewrite !collect_app.
  fold (notifications (trace (getKickbaseBudget cfg w (budgetCallState w st0)))).
  rewrite getKickbaseBudget_no_notification.
  apply (checkAndAlert_run cfg w budget).
Qed.

Lemma fatalErrors_runCheck_resolved st0 budget :
  outcome (getKickbaseBudget cfg w (budgetCallState w st0)) = Return budget ->
  fatalErrors (trace (runCheck cfg w st0)) = [].
Proof.
  intros Hb. rewrite (runCheck_resolved cfg w st0 budget Hb).
  rewrite trace_tuple. unfold fatalErrors.
  rewrite !collect_app.
  fold (fatalErrors (trace (getKickbaseBudget cfg w (budgetCallState w st0)))).
  rewrite getKickbaseBudget_no_fatal.
  apply (checkAndAlert_run cfg w budget).
Qed.

(** C1. The alert decision is the strict comparison
    [currentBudget < KICKBASE_BUDGET_THRESHOLD] with threshold 0: a run whose
    budget resolves to [budget] calls the notification channel iff
    [budget < 0], and then exactly once, with the message for that budget. *)
Theorem alert_iff_budget_below_threshold st0 budget :
  outcome (getKickbaseBudget cfg w (budgetCallState w st0)) = Return budget ->
  KICKBASE_BUDGET_THRESHOLD = 0 /\
  (notifications (trace (runCheck cfg w st0)) <> [] <-> budget < 0) /\
  (budget < 0 ->
   notifications (trace (runCheck cfg w st0)) = [alertMessage cfg budget]).
Proof.
  intros Hb. rewrite (notifications_runCheck_resolved st0 budget Hb).
  unfold KICKBASE_BUDGET_THRESHOLD.
  destruct (Z.ltb_spec budget 0) as [Hlt|Hge].
  - repeat split; try easy.
  - repeat split; try easy; intros; lia.
Qed.

(** C7. A rejected notification call is caught and logged inside
    [sendWhatsappAlert], which returns normally; the run completes and the
    run driver reports no fatal error. *)
Theorem notification_failure_is_not_fatal st0 budget e :
  let st2 := final (getKickbaseBudget cfg w (budgetCallState w st0)) in
  outcome (getKickbaseBudget cfg w (budgetCallState w st0)) = Return budget ->
  budget < KICKBASE_BUDGET_THRESHOLD ->
  messages_create w (tick st2) (alertMessage cfg budget) = inl e ->
  sendWhatsappAlert cfg w budget st2 =
    (Return tt, next st2,
     [EConsole LOG
        "Budget is negative! Sending alert for: ${budget / 1_000_000}M"
        [ANum (JSNumber.div (JSNumber.of_Z budget) (JSNumber.of_Z 1000000))];
      ETwilio (alertMessage cfg budget);
      EConsole ERROR "Error sending message:" [AErr (Rejected e)]]) /\
  outcome (runCheck cfg w st0) = Return tt /\
  fatalErrors (trace (runCheck cfg w st0)) = [] /\
  In (EConsole ERROR "Error sending message:" [AErr (Rejected e)])
     (trace (runCheck cfg w st0)).
Proof.
  intros st2 Hb Hlt Hrej.
  assert (Hsend : sendWhatsappAlert cfg w budget st2 =
    (Return tt, next st2,
     [EConsole LOG
        "Budget is negative! Sending alert for: ${budget / 1_000_000}M"
        [ANum (JSNumber.div (JSNumber.of_Z budget) (JSNumber.of_Z 1000000))];
      ETwilio (alertMessage cfg budget);
      EConsole ERROR "Error sending message:" [AErr (Rejected e)]])).
  { unfold sendWhatsappAlert, bind, try_catch, messagesCreate, console, emit.
    now rewrite Hrej. }
  split; [exact Hsend|].
  split; [now rewrite (runCheck_resolved cfg w st0 budget Hb)|].
  split; [exact (fatalErrors_runCheck_resolved st0 budget Hb)|].
  rewrite (runCheck_resolved cfg w st0 budget Hb). rewrite trace_tuple.
  apply in_or_app; right. apply in_or_app; right. fold st2.
  unfold checkAndAlert. apply Z.ltb_lt in Hlt. rewrite Hlt.
  unfold bind, console, emit. rewrite Hsend. simpl. auto.
Qed.


(** C9. When authentication or budget resolution throws, the run makes no
    notification call; the error reaches the [catch] of [runCheck], which
    logs it, and the run ends.  When the budget resolves, whatever the
    notification channel does, the run ends without a fatal error. *)
Theorem no_alert_on_fatal_failure st0 :
  (forall e,
     outcome (getKickbaseBudget cfg w (budgetCallState w st0)) = Throw e ->
     notifications (trace (runCheck cfg w st0)) = [] /\
     fatalErrors (trace (runCheck cfg w st0)) = [e] /\
     outcome (runCheck cfg w st0) = Return tt) /\
  (forall budget,
     outcome (getKickbaseBudget cfg w (budgetCallState w st0)) = Return budget ->
     fatalErrors (trace (runCheck cfg w st0)) = [] /\
     outcome (runCheck cfg w st0) = Return tt).
Proof.
  split.
  - intros e He. rewrite (runCheck_failed cfg w st0 e He).
    rewrite !trace_tuple, outcome_tuple.
    pose proof (getKickbaseBudget_no_notification cfg w (budgetCallState w st0))
      as Hn.
    pose proof (getKickbaseBudget_no_fatal cfg w (budgetCallState w st0)) as Hf.
    unfold notifications, fatalErrors in *. rewrite !collect_app, Hn, Hf.
    repeat split.
  - intros budget Hb. split.
    + exact (fatalErrors_runCheck_resolved st0 budget Hb).
    + now rewrite (runCheck_resolved cfg w st0 budget Hb).
Qed.

End RunClaims.

(** ** The session manager *)

Ltac run_monad :=
  cbv [bind try_catch fetch console emit settle getGlobals setGlobals ret
       throw toISOString now outcome final trace fst snd].

Ltac case_leaf :=
  match goal with
  | |- context [match ?x with _ => _ end] =>
      lazymatch x with
      | context [match _ with _ => _ end] => fail
      | _ => destruct x eqn:?
      end
  end.

Ltac split_cases := repeat (cbv beta iota; case_leaf); cbv beta iota.

Section Session.

Variable cfg : Config.
Variable w : World.

Lemma isTokenValid_run st :
  outcome (isTokenValid w st)
  = Return (sessionValidAt (globals st) (Date_now w (tick st))) /\
  globals (final (isTokenValid w st)) = globals st /\
  trace (isTokenValid w st) = [].
Proof.
  unfold isTokenValid, sessionValidAt. run_monad.
  destruct (truthy_string (authToken (globals st)));
    destruct (tokenExpiry (globals st)); repeat split; reflexivity.
Qed.

Lemma ensureAuthenticated_valid st :
  outcome (isTokenValid w st) = Return true ->
  ensureAuthenticated cfg w st =
    (Return tt, final (isTokenValid w st),
     [EConsole LOG "Using existing valid token" []]).
Proof.
  intros Hv. unfold ensureAuthenticated.
  rewrite (bind_Return _ _ _ true Hv).
  now rewrite (proj2 (proj2 (isTokenValid_run st))).
Qed.

Lemma ensureAuthenticated_invalid st :
  outcome (isTokenValid w st) = Return false ->
  let r := loginToKickbase cfg w (final (isTokenValid w st)) in
  ensureAuthenticated cfg w st =
    (match outcome r with Return _ => Return tt | Throw e => Throw e end,
     final r,
     EConsole LOG "Token invalid or expired, logging in..." [] :: trace r
     ++ match outcome r with
        | Return _ => []
        | Throw e => [EConsole ERROR "Authentication failed:" [AErr e]]
        end).
Proof.
  intros Hv r. unfold ensureAuthenticated.
  rewrite (bind_Return _ _ _ false Hv).
  rewrite (proj2 (proj2 (isTokenValid_run st))).
  subst r. set (st1 := final (isTokenValid w st)).
  cbn [negb app]. unfold bind, try_catch, ret, throw, console, emit.
  destruct (loginToKickbase cfg w st1) as [[[a|e] st'] evs];
    cbn [outcome final trace fst snd app].
  - now rewrite !app_nil_r.
  - reflexivity.
Qed.

(** Every login attempt is exactly one request, whatever comes of it. *)
Lemma loginToKickbase_networkCalls st :
  networkCalls (trace (loginToKickbase cfg w st))
  = [(LoginEndpoint, loginRequest cfg)].
Proof.
  unfold loginToKickbase. run_monad.
  split_cases; reflexivity.
Qed.

End Session.

Section SessionClaims.

Variable cfg : Config.
Variable w : World.

Lemma expiresAfter_spec t nowMs :
  time_value t -> time_value nowMs ->
  expiresAfter {| timeValue := Some t |} nowMs = true
  <-> nowMs + 5 * 60 * 1000 < t.
Proof.
  unfold time_value, expiresAfter, Date_gt, Date_of_time, maxTime; simpl.
  intros Ht Hn.
  destruct (Z.leb_spec (Z.abs (nowMs + 300000)) 8640000000000000).
  - rewrite Z.ltb_lt. lia.
  - split; [discriminate | lia].
Qed.

(** C2 (amended). [isTokenValid] reads nothing but the token, the expiry and
    the clock, changes nothing, and answers [true] iff the token is a
    non-empty string and the expiry is a valid date strictly later than the
    clock reading plus five minutes. *)
Theorem token_validity st :
  (forall t, tokenExpiry (globals st) = Some {| timeValue := Some t |} ->
             time_value t) ->
  time_value (Date_now w (tick st)) ->
  exists valid,
    outcome (isTokenValid w st) = Return valid /\
    valid = sessionValidAt (globals st) (Date_now w (tick st)) /\
    globals (final (isTokenValid w st)) = globals st /\
    trace (isTokenValid w st) = [] /\
    (valid = true <->
     exists token t,
       authToken (globals st) = Some token /\ token <> "" /\
       tokenExpiry (globals st) = Some {| timeValue := Some t |} /\
       Date_now w (tick st) + 5 * 60 * 1000 < t).
Proof.
  intros Hexp Hnow.
  destruct (isTokenValid_run w st) as (Ho & Hg & Ht).
  eexists; repeat split; try eassumption.
  - unfold sessionValidAt.
    destruct (authToken (globals st)) as [[|c token]|]; simpl;
      intros Hv; try discriminate Hv.
    destruct (tokenExpiry (globals st)) as [[[t|]]|] eqn:Hd;
      try discriminate Hv.
    exists (String c token), t.
    repeat split; try easy.
    apply expiresAfter_spec; auto.
  - intros (token & t & Htok & Hne & Hd & Hlt).
    unfold sessionValidAt. rewrite Htok, Hd.
    destruct token as [|c token]; [congruence|]. simpl.
    apply expiresAfter_spec; auto.
Qed.

(** C3 (amended). With a non-empty league cache and a session that is still
    valid, [getKickbaseLeagues] sends no request, returns the cached
    sequence and leaves the script's variables as they were. *)
Theorem cache_precedence st :
  cachedLeagues (globals st) <> [] ->
  outcome (isTokenValid w st) = Return true ->
  outcome (getKickbaseLeagues cfg w st) = Return (cachedLeagues (globals st)) /\
  networkCalls (trace (getKickbaseLeagues cfg w st)) = [] /\
  globals (final (getKickbaseLeagues cfg w st)) = globals st.
Proof.
  intros Hne Hv. unfold getKickbaseLeagues.
  assert (He : outcome (ensureAuthenticated cfg w st) = Return tt)
    by now rewrite (ensureAuthenticated_valid cfg w st Hv).
  rewrite (bind_Return _ _ _ tt He).
  rewrite (ensureAuthenticated_valid cfg w st Hv).
  rewrite final_tuple, trace_tuple.
  destruct (isTokenValid_run w st) as (_ & Hg & _).
  set (st1 := final (isTokenValid w st)) in *.
  unfold bind, getGlobals, console, emit, ret. rewrite Hg.
  destruct (cachedLeagues (globals st)) as [|l ls] eqn:Hc; [congruence|].
  simpl. repeat split; try reflexivity. exact Hg.
Qed.

(** C4. Two calls of [ensureAuthenticated] in a row, the first one logging
    in and the session still valid at the second: one request in total; the
    second call returns having written one console line and nothing else:
    no request, no change to the script's variables. *)
Theorem ensureAuthenticated_idempotent st :
  let r1 := ensureAuthenticated cfg w st in
  let r2 := ensureAuthenticated cfg w (final r1) in
  outcome (isTokenValid w st) = Return false ->
  outcome r1 = Return tt ->
  outcome (isTokenValid w (final r1)) = Return true ->
  networkCalls (trace r1 ++ trace r2) = [(LoginEndpoint, loginRequest cfg)] /\
  outcome r2 = Return tt /\
  trace r2 = [EConsole LOG "Using existing valid token" []] /\
  globals (final r2) = globals (final r1).
Proof.
  intros r1 r2 Hinv Hok Hval.
  assert (H2 : r2 = (Return tt, final (isTokenValid w (final r1)),
                     [EConsole LOG "Using existing valid token" []]))
    by exact (ensureAuthenticated_valid cfg w (final r1) Hval).
  rewrite H2, trace_tuple, outcome_tuple, final_tuple.
  repeat split.
  - unfold networkCalls. rewrite collect_app. simpl. rewrite app_nil_r.
    unfold r1. rewrite (ensureAuthenticated_invalid cfg w st Hinv).
    rewrite trace_tuple. simpl. rewrite collect_app.
    fold (networkCalls
            (trace (loginToKickbase cfg w (final (isTokenValid w st))))).
    rewrite loginToKickbase_networkCalls.
    destruct (outcome (loginToKickbase cfg w _)); reflexivity.
  - apply (isTokenValid_run w (final r1)).
Qed.

(** C5 (amended). A login attempt that ends in a transport failure or in
    a non-success status leaves token, expiry and league cache untouched and
    throws, the error being logged.  When the request is rejected, or the
    body of the non-success answer cannot be read, the error is that
    rejection itself; otherwise it is an [Error] whose message is "Login
    failed: <status> <statusText>", the upstream body having been written to
    the error log only. *)
Theorem login_failure_is_atomic st :
  let res := fetch_login w (tick st) (loginRequest cfg) in
  let r := loginToKickbase cfg w st in
  loginFailed res ->
  globals (final r) = globals st /\
  (exists e,
     outcome r = Throw e /\
     In (EConsole ERROR "Failed to login to Kickbase:" [AErr e]) (trace r)) /\
  (forall h, res = inl h -> outcome r = Throw (Rejected h)) /\
  (forall response h,
     res = inr response -> text response = inl h ->
     outcome r = Throw (Rejected h)) /\
  (forall response body,
     res = inr response -> text response = inr body ->
     outcome r
     = Throw (ErrorNew ("Login failed: "
                        ++ JSNumber.Z_toString (status response) ++ " "
                        ++ statusText response)%string) /\
     In (EConsole ERROR "Login error response:" [AStr body]) (trace r)).
Proof.
  intros res r. subst res r.
  unfold loginFailed, loginToKickbase. run_monad.
  destruct (fetch_login w (tick st) (loginRequest cfg)) as [e|response].
  - intros _. split; [reflexivity|].
    split; [eexists; split; [reflexivity|simpl; auto 10]|].
    split; [now intros h [= <-]|]. split; intros; discriminate.
  - intros Hok. rewrite Hok. cbv beta iota delta [negb].
    destruct (text response) as [e|body] eqn:Htext; cbv beta iota.
    + split; [reflexivity|].
      split; [eexists; split; [reflexivity|simpl; auto 10]|].
      split; [intros; discriminate|].
      split; intros response' x [= <-]; rewrite Htext; intros [= <-].
      reflexivity.
    + split; [reflexivity|].
      split; [eexists; split; [reflexivity|simpl; auto 10]|].
      split; [intros; discriminate|].
      split; intros response' x [= <-]; rewrite Htext; intros [= <-].
      split; [reflexivity|simpl; auto 10].
Qed.

End SessionClaims.

(** ** The budget resolver *)

Lemma returns_try {A} (m : M A) (h : JsError -> M A) (P : A -> Prop) :
  returns m P -> (forall e, returns (h e) P) -> returns (try_catch m h) P.
Proof.
  intros Hm Hh st x.
  destruct (outcome_cases (outcome (m st))) as [[a Ha]|[e He]].
  - rewrite (try_Return m h st a Ha), outcome_tuple.
    intros [= <-]. eapply Hm, Ha.
  - rewrite (try_Throw m h st e He), outcome_tuple. apply Hh.
Qed.

Lemma throwsOnly_seq {A B} (m : M A) (k : A -> M B) (E : JsError -> Prop) :
  throwsOnly m E -> (forall a, throwsOnly (k a) E) -> throwsOnly (bind m k) E.
Proof.
  intros Hm Hk. apply throwsOnly_bind with (P := fun _ => True); auto.
  apply returns_any.
Qed.

Lemma throwsOnly_settle {A} (r : HostError + A) (E : JsError -> Prop) :
  (forall e, E (Rejected e)) -> throwsOnly (settle r) E.
Proof.
  intros HE. destruct r; simpl.
  - now apply throwsOnly_throw.
  - apply throwsOnly_total, total_ret.
Qed.

Lemma throwsOnly_fetch {T} ep
  (oracle : nat -> Request -> HostError + Response T) req
  (E : JsError -> Prop) :
  (forall e, E (Rejected e)) -> throwsOnly (fetch ep oracle req) E.
Proof.
  intros HE st e. unfold fetch.
  destruct (oracle (tick st) req); rewrite outcome_tuple; intros [= <-].
  apply HE.
Qed.

Lemma throwsOnly_toISOString d (E : JsError -> Prop) :
  E RangeErrorInvalidTime -> throwsOnly (toISOString d) E.
Proof.
  intros HE. unfold toISOString. destruct (timeValue d).
  - apply throwsOnly_total, total_ret.
  - now apply throwsOnly_throw.
Qed.

Ltac not_defensive :=
  first [ assumption
        | let H := fresh in
          unfold safe; intros [H|H]; simpl in H; discriminate H ].

Ltac throws_step known :=
  first
    [ solve [known]
    | apply throwsOnly_seq; [|intro]
    | apply throwsOnly_try; [|intros ? ?]
    | apply throwsOnly_total;
      first [ apply total_ret | apply total_console | apply total_getGlobals
            | apply total_setGlobals | apply total_now ]
    | apply throwsOnly_throw; not_defensive
    | apply throwsOnly_settle; intro; not_defensive
    | apply throwsOnly_fetch; intro; not_defensive
    | apply throwsOnly_toISOString; not_defensive
    | match goal with
      | |- throwsOnly (if ?c then _ else _) _ => destruct c
      | |- throwsOnly (match ?x with _ => _ end) _ => destruct x
      end ].

Ltac returns_step known :=
  first
    [ solve [known]
    | apply returns_bind; intro
    | apply returns_try; [|intro]
    | apply returns_throw
    | match goal with
      | |- returns (if ?c then _ else _) _ => destruct c eqn:?
      | |- returns (match ?x with _ => _ end) _ => destruct x eqn:?
      end ].

Section Resolver.

Variable cfg : Config.
Variable w : World.

Lemma safe_loginToKickbase : throwsOnly (loginToKickbase cfg w) safe.
Proof. unfold loginToKickbase. repeat throws_step fail. Qed.

Lemma total_isTokenValid : total (isTokenValid w).
Proof.
  intros st. eexists. apply (isTokenValid_run w st).
Qed.

Lemma safe_ensureAuthenticated : throwsOnly (ensureAuthenticated cfg w) safe.
Proof.
  unfold ensureAuthenticated.
  repeat throws_step ltac:(first [ apply throwsOnly_total, total_isTokenValid
                                 | apply safe_loginToKickbase ]).
Qed.

Lemma total_tryEndpoint endpoint : total (tryEndpoint cfg w endpoint).
Proof.
  unfold tryEndpoint. apply total_bind; [apply total_console|intros _].
  apply total_try. intros e.
  apply total_bind; [apply total_console|intros _]. apply total_ret.
Qed.

Lemma safe_tryEndpoints endpoints :
  throwsOnly (tryEndpoints cfg w endpoints) safe.
Proof.
  induction endpoints as [|endpoint rest IH]; simpl.
  - apply throwsOnly_throw. not_defensive.
  - repeat throws_step ltac:(first [ apply throwsOnly_total, total_tryEndpoint
                                   | exact IH ]).
Qed.

Lemma safe_getKickbaseLeagues : throwsOnly (getKickbaseLeagues cfg w) safe.
Proof.
  unfold getKickbaseLeagues.
  repeat throws_step ltac:(first [ apply safe_ensureAuthenticated
                                 | apply safe_tryEndpoints ]).
Qed.

(** An iteration of the endpoint loop returns from the function only with a
    non-empty sequence. *)
Lemma tryEndpoint_nonempty endpoint :
  returns (tryEndpoint cfg w endpoint)
    (fun r => forall leagues, r = Some leagues -> leagues <> []).
Proof.
  unfold tryEndpoint.
  repeat returns_step fail;
    apply returns_ret; intros leagues Heq;
    first [ discriminate Heq
          | injection Heq as <-; intros Hnil; rewrite Hnil in *; discriminate ].
Qed.

Lemma tryEndpoints_nonempty endpoints :
  returns (tryEndpoints cfg w endpoints) (fun leagues => leagues <> []).
Proof.
  induction endpoints as [|endpoint rest IH]; simpl.
  - apply returns_throw.
  - intros st leagues.
    destruct (outcome_cases (outcome (tryEndpoint cfg w endpoint st)))
      as [[r Hr]|[e He]].
    + rewrite (bind_Return _ _ _ r Hr), outcome_tuple.
      destruct r as [found|].
      * intros [= <-]. eapply (tryEndpoint_nonempty endpoint); eauto.
      * apply IH.
    + rewrite (bind_Throw _ _ _ e He), outcome_tuple. discriminate.
Qed.

Lemma getKickbaseLeagues_nonempty :
  returns (getKickbaseLeagues cfg w) (fun leagues => leagues <> []).
Proof.
  unfold getKickbaseLeagues.
  repeat returns_step ltac:(apply tryEndpoints_nonempty).
  apply returns_ret. intros Hc. rewrite Hc in *. discriminate.
Qed.

(** The outcome of [getKickbaseBudget], from the outcomes of its steps. *)
Lemma getKickbaseBudget_outcome st :
  let st1 := final (ensureAuthenticated cfg w st) in
  let st2 := final (getKickbaseLeagues cfg w st1) in
  outcome (getKickbaseBudget cfg w st) =
  match outcome (ensureAuthenticated cfg w st) with
  | Throw e => Throw e
  | Return _ =>
      match outcome (getKickbaseLeagues cfg w st1) with
      | Throw e => Throw e
      | Return [] => Throw (ErrorNew "No leagues found for user")
      | Return (None :: _) => Throw (ErrorNew "No primary league found")
      | Return (Some primaryLeague :: _) =>
          budgetOutcome
            (fetch_budget w (tick st2)
               (budgetRequest cfg primaryLeague (authToken (globals st2))))
      end
  end.
Proof.
  intros st1 st2. subst st1 st2.
  unfold getKickbaseBudget, budgetOutcome, budgetRequest.
  unfold bind, try_catch, console, emit, ret, throw, fetch, getGlobals.
  destruct (ensureAuthenticated cfg w st) as [[[[]|e1] s1] ev1];
    rewrite ?outcome_tuple, ?final_tuple; [|reflexivity].
  destruct (getKickbaseLeagues cfg w s1) as [[[leagues|e2] s2] ev2];
    rewrite ?outcome_tuple, ?final_tuple; [|reflexivity].
  destruct leagues as [|[primaryLeague|] rest];
    cbn [List.length Nat.eqb nth_error]; cbv beta iota; try reflexivity.
  destruct (fetch_budget w (tick s2) _) as [e|response]; cbv beta iota;
    [reflexivity|].
  destruct (ok response); cbv beta iota delta [negb]; [|reflexivity].
  unfold settle. destruct (json response); reflexivity.
Qed.

Lemma budgetOutcome_safe res e : budgetOutcome res = Throw e -> safe e.
Proof.
  unfold budgetOutcome.
  destruct res as [h|response]; [intros [= <-]; not_defensive|].
  destruct (ok response); [|intros [= <-]; not_defensive].
  destruct (json response); [intros [= <-]; not_defensive|discriminate].
Qed.

(** C10 (amended).  [getKickbaseLeagues] returns only non-empty sequences,
    so the empty-sequence check of [getKickbaseBudget] cannot fire: "No
    leagues found for user" is never thrown.  The check of the first element
    can: "No primary league found" is thrown exactly when authentication and
    league discovery return and the first element of the sequence is
    [null]. *)
Theorem defensive_checks_reachability :
  (forall st leagues,
     outcome (getKickbaseLeagues cfg w st) = Return leagues -> leagues <> []) /\
  (forall st e,
     outcome (getKickbaseBudget cfg w st) = Throw e ->
     e <> ErrorNew "No leagues found for user") /\
  (forall st,
     outcome (getKickbaseBudget cfg w st)
     = Throw (ErrorNew "No primary league found") <->
     outcome (ensureAuthenticated cfg w st) = Return tt /\
     exists rest,
       outcome (getKickbaseLeagues cfg w
                  (final (ensureAuthenticated cfg w st)))
       = Return (None :: rest)).
Proof.
  split; [exact getKickbaseLeagues_nonempty|].
  split.
  - intros st e. rewrite getKickbaseBudget_outcome. cbv zeta.
    destruct (outcome (ensureAuthenticated cfg w st)) as [[]|e1] eqn:Ha.
    + destruct (outcome (getKickbaseLeagues cfg w _))
        as [[|[primaryLeague|] rest]|e2] eqn:Hl.
      * now apply getKickbaseLeagues_nonempty in Hl.
      * intros Hb. apply budgetOutcome_safe in Hb.
        unfold safe, defensive in Hb. tauto.
      * intros [= <-]. discriminate.
      * intros [= <-]. apply safe_getKickbaseLeagues in Hl.
        unfold safe, defensive in Hl. tauto.
    + intros [= <-]. apply safe_ensureAuthenticated in Ha.
      unfold safe, defensive in Ha. tauto.
  - intros st. rewrite getKickbaseBudget_outcome. cbv zeta.
    destruct (outcome (ensureAuthenticated cfg w st)) as [[]|e1] eqn:Ha.
    + destruct (outcome (getKickbaseLeagues cfg w _))
        as [[|[primaryLeague|] rest]|e2] eqn:Hl.
      * now apply getKickbaseLeagues_nonempty in Hl.
      * split.
        -- intros Hb. apply budgetOutcome_safe in Hb.
           unfold safe, defensive in Hb. tauto.
        -- intros (_ & rest' & [=]).
      * split; [intros _; split; [reflexivity|now exists rest]|reflexivity].
      * split.
        -- intros [= ->]. apply safe_getKickbaseLeagues in Hl.
           unfold safe, defensive in Hl. tauto.
        -- intros (_ & rest' & [=]).
    + split.
      * intros [= ->]. apply safe_ensureAuthenticated in Ha.
        unfold safe, defensive in Ha. tauto.
      * intros ([=] & _).
Qed.

End Resolver.

(** ** Scenario B: no league list anywhere *)

Section ScenarioB.

Variable cfg : Config.
Variable w : World.

Hypothesis login_ok : loginWithoutLeagues w.
Hypothesis leagues_empty : leaguesAnswerEmpty w.

Lemma Date_of_time_valid time :
  time_value time -> timeValue (Date_of_time time) = Some time.
Proof.
  unfold time_value, Date_of_time, maxTime; simpl. intros H.
  destruct (Z.leb_spec (Z.abs time) 8640000000000000); [reflexivity|lia].
Qed.

Lemma loginToKickbase_keeps_cache st :
  exists body,
    outcome (loginToKickbase cfg w st) = Return body /\
    cachedLeagues (globals (final (loginToKickbase cfg w st)))
    = cachedLeagues (globals st).
Proof.
  destruct (login_ok (tick st) (loginRequest cfg))
    as (response & body & time & Hf & Hok & Hj & Hs & Hp & Ht).
  exists body. unfold loginToKickbase, Date_of_string. run_monad.
  rewrite Hf. cbv beta iota. rewrite Hok. cbv beta iota delta [negb].
  rewrite Hj. cbv beta iota. rewrite Hs, Hp. cbv beta iota.
  rewrite (Date_of_time_valid time Ht). split; reflexivity.
Qed.

Lemma ensureAuthenticated_keeps_cache st :
  outcome (ensureAuthenticated cfg w st) = Return tt /\
  cachedLeagues (globals (final (ensureAuthenticated cfg w st)))
  = cachedLeagues (globals st).
Proof.
  destruct (isTokenValid_run w st) as (Ho & Hg & _).
  destruct (sessionValidAt (globals st) (Date_now w (tick st))).
  - rewrite (ensureAuthenticated_valid cfg w st Ho).
    rewrite outcome_tuple, final_tuple, Hg. now split.
  - rewrite (ensureAuthenticated_invalid cfg w st Ho).
    rewrite outcome_tuple, final_tuple.
    destruct (loginToKickbase_keeps_cache (final (isTokenValid w st)))
      as (body & Hb & Hc).
    rewrite Hb, Hc, Hg. now split.
Qed.

Lemma tryEndpoint_finds_nothing endpoint st :
  outcome (tryEndpoint cfg w endpoint st) = Return None.
Proof.
  unfold tryEndpoint. run_monad.
  destruct (leagues_empty (tick st)
              (getRequest (KICKBASE_API_BASE cfg ++ endpoint)%string
                 (authToken (globals st))))
    as (response & Hf & Hok & Hj).
  rewrite Hf. cbv beta iota. rewrite Hok. cbv beta iota.
  rewrite Hj. reflexivity.
Qed.

Lemma getKickbaseLeagues_fails st :
  cachedLeagues (globals st) = [] ->
  outcome (getKickbaseLeagues cfg w st)
  = Throw (ErrorNew "Could not fetch leagues from any known endpoint").
Proof.
  intros Hc. unfold getKickbaseLeagues.
  destruct (ensureAuthenticated_keeps_cache st) as (Ho & Hk).
  rewrite (bind_Return _ _ _ tt Ho), outcome_tuple.
  set (st1 := final (ensureAuthenticated cfg w st)) in *.
  rewrite (bind_Return _ _ _ (globals st1)) by reflexivity.
  rewrite outcome_tuple. cbv [getGlobals final fst snd].
  rewrite Hk, Hc. cbv [List.length Nat.ltb Nat.leb possibleEndpoints tryEndpoints].
  rewrite (bind_Return _ _ _ None (tryEndpoint_finds_nothing _ _)).
  reflexivity.
Qed.

Lemma getKickbaseBudget_leagues_failed st e :
  outcome (getKickbaseLeagues cfg w (final (ensureAuthenticated cfg w st)))
  = Throw e ->
  outcome (getKickbaseBudget cfg w st) = Throw e /\
  trace (getKickbaseBudget cfg w st) =
    EConsole LOG "Fetching Kickbase budget..." []
    :: (trace (ensureAuthenticated cfg w st)
        ++ trace (getKickbaseLeagues cfg w (final (ensureAuthenticated cfg w st))))
       ++ [EConsole ERROR "Failed to fetch budget:" [AErr e]].
Proof.
  intros He. unfold getKickbaseBudget.
  destruct (ensureAuthenticated_keeps_cache st) as (Ho & _).
  rewrite (bind_Return _ _ _ tt) by reflexivity.
  rewrite outcome_tuple, trace_tuple.
  set (body := bind (ensureAuthenticated cfg w) _).
  assert (Hbody : body st =
            (Throw e,
             final (getKickbaseLeagues cfg w (final (ensureAuthenticated cfg w st))),
             trace (ensureAuthenticated cfg w st)
             ++ trace (getKickbaseLeagues cfg w
                         (final (ensureAuthenticated cfg w st))))).
  { unfold body. rewrite (bind_Return _ _ _ tt Ho).
    now rewrite (bind_Throw _ _ _ e He). }
  change (final (console LOG "Fetching Kickbase budget..." [] st)) with st.
  rewrite (try_Throw _ _ _ e) by now rewrite Hbody.
  rewrite Hbody, outcome_tuple, trace_tuple, final_tuple. split; reflexivity.
Qed.

Lemma asFetchBudget_login req : asBudgetFetch (EFetch LoginEndpoint req) = None.
Proof. reflexivity. Qed.

Lemma asFetchBudget_leagues req :
  asBudgetFetch (EFetch LeaguesEndpoint req) = None.
Proof. reflexivity. Qed.

(** C6. When login carries no league list and the leagues endpoint answers
    [{leagues: []}], [getKickbaseBudget] throws the resolution error "Could
    not fetch leagues from any known endpoint"; neither it nor the run calls
    the budget endpoint, and the run sends no alert. *)
Theorem no_leagues_is_fatal st0 :
  cachedLeagues (globals st0) = [] ->
  let st := budgetCallState w st0 in
  outcome (getKickbaseBudget cfg w st)
  = Throw (ErrorNew "Could not fetch leagues from any known endpoint") /\
  budgetCalls (trace (getKickbaseBudget cfg w st)) = [] /\
  budgetCalls (trace (runCheck cfg w st0)) = [] /\
  notifications (trace (runCheck cfg w st0)) = [] /\
  fatalErrors (trace (runCheck cfg w st0))
  = [ErrorNew "Could not fetch leagues from any known endpoint"].
Proof.
  intros Hc st.
  set (err := ErrorNew "Could not fetch leagues from any known endpoint").
  assert (Hl : outcome (getKickbaseLeagues cfg w
                          (final (ensureAuthenticated cfg w st))) = Throw err).
  { apply getKickbaseLeagues_fails.
    rewrite (proj2 (ensureAuthenticated_keeps_cache st)). exact Hc. }
  destruct (getKickbaseBudget_leagues_failed st err Hl) as (Ho & Ht).
  assert (Hb : budgetCalls (trace (getKickbaseBudget cfg w st)) = []).
  { rewrite Ht. unfold budgetCalls. simpl. rewrite !collect_app. simpl.
    rewrite (quiet_ensureAuthenticated cfg w asBudgetFetch
               asBudgetFetch_console asFetchBudget_login).
    rewrite (quiet_getKickbaseLeagues cfg w asBudgetFetch
               asBudgetFetch_console asFetchBudget_login
               asFetchBudget_leagues).
    reflexivity. }
  split; [exact Ho|]. split; [exact Hb|].
  rewrite (runCheck_failed cfg w st0 err Ho), trace_tuple.
  fold st. unfold budgetCalls, notifications, fatalErrors in *.
  rewrite !collect_app, Hb.
  pose proof (getKickbaseBudget_no_notification cfg w st) as Hn.
  pose proof (getKickbaseBudget_no_fatal cfg w st) as Hf.
  unfold notifications, fatalErrors in *. rewrite Hn, Hf.
  repeat split.
Qed.

End ScenarioB.

(** ** Worked instances *)

(** The boundary of C1: budget 0 sends nothing, budget -1 sends one alert. *)
Example budget_zero_no_alert :
  notifications
    (trace (runCheck Sample.config (Sample.inlineLeagues 0 (inr "SM1"))
              Sample.start)) = [].
Proof. vm_compute. reflexivity. Qed.

Lemma alert_iff_budget_below_threshold_witness :
  outcome (getKickbaseBudget Sample.config
             (Sample.inlineLeagues (-1) (inr "SM1"))
             (budgetCallState (Sample.inlineLeagues (-1) (inr "SM1"))
                Sample.start)) = Return (-1) /\
  KICKBASE_BUDGET_THRESHOLD = 0 /\
  (notifications
     (trace (runCheck Sample.config (Sample.inlineLeagues (-1) (inr "SM1"))
               Sample.start)) <> [] <-> -1 < 0) /\
  (-1 < 0 ->
   notifications
     (trace (runCheck Sample.config (Sample.inlineLeagues (-1) (inr "SM1"))
               Sample.start)) = [alertMessage Sample.config (-1)]).
Proof.
  assert (H : outcome (getKickbaseBudget Sample.config
             (Sample.inlineLeagues (-1) (inr "SM1"))
             (budgetCallState (Sample.inlineLeagues (-1) (inr "SM1"))
                Sample.start)) = Return (-1)) by (vm_compute; reflexivity).
  split; [exact H|].
  exact (alert_iff_budget_below_threshold Sample.config
           (Sample.inlineLeagues (-1) (inr "SM1")) Sample.start (-1) H).
Defined.

(** C2, as the specification words it, fails on an empty token.  After a
    login that returned the empty string as token and an expiry one hour
    ahead, the token is not null and the expiry is later than now plus five
    minutes, yet [isTokenValid] answers [false]: [!authToken] holds for the
    empty string. *)
Lemma token_validity_counterexample :
  let st := final (loginToKickbase Sample.config Sample.blankToken
                     Sample.start) in
  outcome (loginToKickbase Sample.config Sample.blankToken Sample.start)
  = Return {| tkn := Some ""; tknex := "2024-01-01T13:00:00Z";
              srvl := Some [Some Sample.league] |} /\
  specValid (authToken (globals st)) (tokenExpiry (globals st))
            (Date_now Sample.blankToken (tick st)) /\
  outcome (isTokenValid Sample.blankToken st) = Return false.
Proof.
  split; [reflexivity|]. split; [|reflexivity].
  split; [discriminate|].
  exists Sample.oneHourLater. split; [reflexivity|]. vm_compute. reflexivity.
Qed.

Lemma token_validity_witness :
  exists valid,
    outcome (isTokenValid (Sample.inlineLeagues 0 (inr "SM1")) Sample.loggedIn)
    = Return valid /\
    valid = sessionValidAt (globals Sample.loggedIn)
              (Date_now (Sample.inlineLeagues 0 (inr "SM1"))
                 (tick Sample.loggedIn)) /\
    globals (final (isTokenValid (Sample.inlineLeagues 0 (inr "SM1"))
                      Sample.loggedIn)) = globals Sample.loggedIn /\
    trace (isTokenValid (Sample.inlineLeagues 0 (inr "SM1")) Sample.loggedIn)
    = [] /\
    (valid = true <->
     exists token t,
       authToken (globals Sample.loggedIn) = Some token /\ token <> "" /\
       tokenExpiry (globals Sample.loggedIn) = Some {| timeValue := Some t |} /\
       Date_now (Sample.inlineLeagues 0 (inr "SM1")) (tick Sample.loggedIn)
       + 5 * 60 * 1000 < t).
Proof.
  apply (token_validity (Sample.inlineLeagues 0 (inr "SM1")) Sample.loggedIn).
  - intros t [= <-]. vm_compute. split; discriminate.
  - vm_compute. split; discriminate.
Defined.

(** C3, as stated, fails when the session behind the cache is no longer
    valid.  After a first [ensureAuthenticated] the cache holds one league
    but the token has already expired; [getKickbaseLeagues] then logs in
    again, which is a request, and returns the list of that second login
    instead of the cached one. *)
Lemma cache_precedence_counterexample :
  let st := final (ensureAuthenticated Sample.config Sample.shortLived
                     Sample.start) in
  cachedLeagues (globals st) = [Some Sample.league] /\
  networkCalls
    (trace (getKickbaseLeagues Sample.config Sample.shortLived st))
  = [(LoginEndpoint, loginRequest Sample.config)] /\
  outcome (getKickbaseLeagues Sample.config Sample.shortLived st)
  = Return [Some Sample.otherLeague].
Proof. repeat split; vm_compute; reflexivity. Qed.

Lemma cache_precedence_witness :
  outcome (getKickbaseLeagues Sample.config Sample.freshLeagues Sample.loggedIn)
  = Return (cachedLeagues (globals Sample.loggedIn)) /\
  networkCalls
    (trace (getKickbaseLeagues Sample.config Sample.freshLeagues
              Sample.loggedIn)) = [] /\
  globals (final (getKickbaseLeagues Sample.config Sample.freshLeagues
                    Sample.loggedIn)) = globals Sample.loggedIn.
Proof.
  apply (cache_precedence Sample.config Sample.freshLeagues Sample.loggedIn).
  - simpl. discriminate.
  - vm_compute. reflexivity.
Defined.

Lemma ensureAuthenticated_idempotent_witness :
  let w := Sample.inlineLeagues 0 (inr "SM1") in
  let r1 := ensureAuthenticated Sample.config w Sample.start in
  let r2 := ensureAuthenticated Sample.config w (final r1) in
  networkCalls (trace r1 ++ trace r2)
  = [(LoginEndpoint, loginRequest Sample.config)] /\
  outcome r2 = Return tt /\
  trace r2 = [EConsole LOG "Using existing valid token" []] /\
  globals (final r2) = globals (final r1).
Proof.
  apply (ensureAuthenticated_idempotent Sample.config
           (Sample.inlineLeagues 0 (inr "SM1")) Sample.start);
    vm_compute; reflexivity.
Defined.

(** C5, as the specification words it, fails: the error of a failed login
    need not carry the upstream status, and never carries the upstream
    body.  A login answered with status 500 whose body cannot be read throws
    the rejection of the body read, which holds no "500"; a login answered
    with 401 and the body "bad credentials" throws "Login failed: 401
    Unauthorized", which holds no "bad credentials". *)
Lemma login_failure_counterexample :
  outcome (loginToKickbase Sample.config Sample.unreadableBody Sample.start)
  = Throw (Rejected "body stream aborted") /\
  carries (Rejected "body stream aborted") "500" = false /\
  outcome (loginToKickbase Sample.config Sample.loginRejected Sample.start)
  = Throw (ErrorNew "Login failed: 401 Unauthorized") /\
  carries (ErrorNew "Login failed: 401 Unauthorized") "bad credentials"
  = false.
Proof. repeat split; vm_compute; reflexivity. Qed.

Lemma login_failure_is_atomic_witness :
  let res := fetch_login Sample.loginRejected (tick Sample.loggedIn)
               (loginRequest Sample.config) in
  let r := loginToKickbase Sample.config Sample.loginRejected Sample.loggedIn in
  globals (final r) = globals Sample.loggedIn /\
  (exists e,
     outcome r = Throw e /\
     In (EConsole ERROR "Failed to login to Kickbase:" [AErr e]) (trace r)) /\
  (forall h, res = inl h -> outcome r = Throw (Rejected h)) /\
  (forall response h,
     res = inr response -> text response = inl h ->
     outcome r = Throw (Rejected h)) /\
  (forall response body,
     res = inr response -> text response = inr body ->
     outcome r
     = Throw (ErrorNew ("Login failed: "
                        ++ JSNumber.Z_toString (status response) ++ " "
                        ++ statusText response)%string) /\
     In (EConsole ERROR "Login error response:" [AStr body]) (trace r)).
Proof.
  apply (login_failure_is_atomic Sample.config Sample.loginRejected
           Sample.loggedIn).
  vm_compute. reflexivity.
Defined.

(** The error of the rejected login reads "Login failed: 401 Unauthorized". *)
Example login_rejected_message :
  outcome (loginToKickbase Sample.config Sample.loginRejected Sample.start)
  = Throw (ErrorNew "Login failed: 401 Unauthorized").
Proof. vm_compute. reflexivity. Qed.

Lemma noLeagues_login : loginWithoutLeagues Sample.noLeagues.
Proof.
  intros t req.
  exists (Sample.respond 200 "OK" "" (inr (Sample.loginBody None))),
         (Sample.loginBody None), Sample.oneHourLater.
  repeat split; try reflexivity; vm_compute; discriminate.
Defined.

Lemma noLeagues_endpoint : leaguesAnswerEmpty Sample.noLeagues.
Proof.
  intros t req.
  exists (Sample.respond 200 "OK" "" (inr (LeaguesObject (Some [])))).
  repeat split; reflexivity.
Defined.

Lemma no_leagues_is_fatal_witness :
  let st := budgetCallState Sample.noLeagues Sample.start in
  outcome (getKickbaseBudget Sample.config Sample.noLeagues st)
  = Throw (ErrorNew "Could not fetch leagues from any known endpoint") /\
  budgetCalls (trace (getKickbaseBudget Sample.config Sample.noLeagues st))
  = [] /\
  budgetCalls (trace (runCheck Sample.config Sample.noLeagues Sample.start))
  = [] /\
  notifications (trace (runCheck Sample.config Sample.noLeagues Sample.start))
  = [] /\
  fatalErrors (trace (runCheck Sample.config Sample.noLeagues Sample.start))
  = [ErrorNew "Could not fetch leagues from any known endpoint"].
Proof.
  apply (no_leagues_is_fatal Sample.config Sample.noLeagues noLeagues_login
           noLeagues_endpoint Sample.start).
  reflexivity.
Defined.

Lemma notification_failure_is_not_fatal_witness :
  let w := Sample.inlineLeagues (-100) (inl "twilio unreachable") in
  let st2 := final (getKickbaseBudget Sample.config w
                      (budgetCallState w Sample.start)) in
  sendWhatsappAlert Sample.config w (-100) st2 =
    (Return tt, next st2,
     [EConsole LOG
        "Budget is negative! Sending alert for: ${budget / 1_000_000}M"
        [ANum (JSNumber.div (JSNumber.of_Z (-100)) (JSNumber.of_Z 1000000))];
      ETwilio (alertMessage Sample.config (-100));
      EConsole ERROR "Error sending message:"
        [AErr (Rejected "twilio unreachable")]]) /\
  outcome (runCheck Sample.config w Sample.start) = Return tt /\
  fatalErrors (trace (runCheck Sample.config w Sample.start)) = [] /\
  In (EConsole ERROR "Error sending message:"
        [AErr (Rejected "twilio unreachable")])
     (trace (runCheck Sample.config w Sample.start)).
Proof.
  apply (notification_failure_is_not_fatal Sample.config
           (Sample.inlineLeagues (-100) (inl "twilio unreachable"))
           Sample.start (-100) "twilio unreachable");
    vm_compute; reflexivity.
Defined.


(** The variables of C8 as the text handed to the channel: an object with
    the two quoted keys and values, in this order. *)
Example alert_variables_text :
  let q := String JSON.dquote "" in
  JSON.stringify [("1", "-0.00M"); ("2", "20:30")]
  = ("{" ++ q ++ "1" ++ q ++ ":" ++ q ++ "-0.00M" ++ q ++ ","
     ++ q ++ "2" ++ q ++ ":" ++ q ++ "20:30" ++ q ++ "}")%string.
Proof. reflexivity. Qed.

Lemma no_alert_on_fatal_failure_witness :
  notifications (trace (runCheck Sample.config Sample.loginRejected
                          Sample.start)) = [] /\
  fatalErrors (trace (runCheck Sample.config Sample.loginRejected
                        Sample.start))
  = [ErrorNew "Login failed: 401 Unauthorized"] /\
  outcome (runCheck Sample.config Sample.loginRejected Sample.start)
  = Return tt.
Proof.
  apply (proj1 (no_alert_on_fatal_failure Sample.config Sample.loginRejected
                  Sample.start)).
  vm_compute. reflexivity.
Defined.

(** C10, as stated, fails for the second defensive check: when the
    leagues endpoint answers [{leagues: [null]}], the sequence has length 1,
    [getKickbaseLeagues] returns it, and [getKickbaseBudget] throws "No
    primary league found". *)
Lemma defensive_checks_counterexample :
  let st := budgetCallState Sample.nullLeague Sample.start in
  outcome (getKickbaseLeagues Sample.config Sample.nullLeague
             (final (ensureAuthenticated Sample.config Sample.nullLeague st)))
  = Return [None] /\
  outcome (getKickbaseBudget Sample.config Sample.nullLeague st)
  = Throw (ErrorNew "No primary league found") /\
  fatalErrors (trace (runCheck Sample.config Sample.nullLeague Sample.start))
  = [ErrorNew "No primary league found"].
Proof. repeat split; vm_compute; reflexivity. Qed.

Lemma defensive_checks_reachability_witness :
  [Some Sample.league] <> [] /\
  ErrorNew "Could not fetch leagues from any known endpoint"
  <> ErrorNew "No leagues found for user" /\
  outcome (getKickbaseBudget Sample.config Sample.nullLeague Sample.start)
  = Throw (ErrorNew "No primary league found").
Proof.
  split; [|split].
  - apply (proj1 (defensive_checks_reachability Sample.config
                    (Sample.inlineLeagues 0 (inr "SM1")))
             Sample.start [Some Sample.league]).
    vm_compute. reflexivity.
  - apply (proj1 (proj2 (defensive_checks_reachability Sample.config
                           Sample.noLeagues))
             Sample.start).
    vm_compute. reflexivity.
  - apply (proj2 (proj2 (defensive_checks_reachability Sample.config
                           Sample.nullLeague))
             Sample.start).
    split; [vm_compute; reflexivity|].
    exists []. vm_compute. reflexivity.
Defined.

(** Outside C5: a login answered with status 200 can still fail, after the
    session variables were assigned, when [tknex] does not parse to a valid
    date and [toISOString] throws. *)
Example login_with_unparseable_expiry :
  let body := {| tkn := Some "jwt-token"; tknex := "soon"; srvl := None |} in
  let w := Sample.world (Sample.okJson body) (inl "unused") (inl "unused")
             (inr "SM1") in
  outcome (loginToKickbase Sample.config w Sample.start)
  = Throw RangeErrorInvalidTime /\
  authToken (globals (final (loginToKickbase Sample.config w Sample.start)))
  = Some "jwt-token".
Proof. split; vm_compute; reflexivity. Qed.

(** ** Further properties of the session manager *)

Section SessionExtras.

Variable cfg : Config.
Variable w : World.

(** What a login that returns has done. *)
Lemma loginToKickbase_returns st body :
  outcome (loginToKickbase cfg w st) = Return body ->
  exists response,
    fetch_login w (tick st) (loginRequest cfg) = inr response /\
    ok response = true /\ json response = inr body /\
    timeValue (Date_of_string w (tknex body)) <> None /\
    globals (final (loginToKickbase cfg w st)) =
      {| authToken := tkn body;
         tokenExpiry := Some (Date_of_string w (tknex body));
         cachedLeagues := match srvl body with
                          | Some leagues => leagues
                          | None => cachedLeagues (globals st)
                          end |}.
Proof.
  unfold loginToKickbase. run_monad.
  destruct (fetch_login w (tick st) (loginRequest cfg)) as [e|response];
    cbv beta iota; [discriminate|].
  destruct (ok response) eqn:Hok; cbv beta iota delta [negb].
  2:{ destruct (text response); cbv beta iota; discriminate. }
  destruct (json response) as [e|loginData] eqn:Hj; cbv beta iota;
    [discriminate|].
  destruct (srvl loginData) as [leagues|] eqn:Hs; cbv beta iota;
    destruct (timeValue (Date_of_string w (tknex loginData))) eqn:Hd;
    cbv beta iota; try discriminate;
    intros [= <-]; exists response; rewrite Hs, Hd;
    repeat split; try reflexivity; try assumption; discriminate.
Qed.

(** X1. A login that returns has sent exactly one request, got an ok
    response, and has stored the token and the parsed expiry of the
    response; the expiry is a valid date.  The league cache is replaced by
    the league list of the response when there is one (also by an empty
    one) and kept otherwise. *)
Theorem login_success_stores_session st body :
  outcome (loginToKickbase cfg w st) = Return body ->
  let g := globals (final (loginToKickbase cfg w st)) in
  authToken g = tkn body /\
  tokenExpiry g = Some (Date_of_string w (tknex body)) /\
  (exists t, timeValue (Date_of_string w (tknex body)) = Some t) /\
  cachedLeagues g = match srvl body with
                    | Some leagues => leagues
                    | None => cachedLeagues (globals st)
                    end /\
  (exists response,
     fetch_login w (tick st) (loginRequest cfg) = inr response /\
     ok response = true /\ json response = inr body) /\
  networkCalls (trace (loginToKickbase cfg w st))
  = [(LoginEndpoint, loginRequest cfg)].
Proof.
  intros Hr g.
  destruct (loginToKickbase_returns st body Hr)
    as (response & Hf & Hok & Hj & Hd & Hg).
  subst g. rewrite Hg. simpl.
  repeat split; try reflexivity.
  - destruct (timeValue (Date_of_string w (tknex body))) as [t|];
      [now exists t|congruence].
  - now exists response.
  - apply loginToKickbase_networkCalls.
Qed.

Lemma sessionValidAt_invalid_date g d nowMs :
  tokenExpiry g = Some d -> timeValue d = None ->
  sessionValidAt g nowMs = false.
Proof.
  unfold sessionValidAt, expiresAfter, Date_gt. intros -> ->.
  now destruct (truthy_string (authToken g)).
Qed.

(** X2. Login is not atomic on every failure: when the response is ok and
    parses but its [tknex] is not a valid date, [toISOString] throws a
    RangeError after the token, the expiry and (if present) the league list
    have been stored. *)
Theorem login_invalid_expiry_leaves_session st response body :
  fetch_login w (tick st) (loginRequest cfg) = inr response ->
  ok response = true ->
  json response = inr body ->
  timeValue (Date_of_string w (tknex body)) = None ->
  outcome (loginToKickbase cfg w st) = Throw RangeErrorInvalidTime /\
  globals (final (loginToKickbase cfg w st)) =
    {| authToken := tkn body;
       tokenExpiry := Some (Date_of_string w (tknex body));
       cachedLeagues := match srvl body with
                        | Some leagues => leagues
                        | None => cachedLeagues (globals st)
                        end |} /\
  sessionValidAt (globals (final (loginToKickbase cfg w st)))
    (Date_now w (tick (final (loginToKickbase cfg w st)))) = false.
Proof.
  intros Hf Hok Hj Hd.
  assert (H : outcome (loginToKickbase cfg w st) = Throw RangeErrorInvalidTime /\
              globals (final (loginToKickbase cfg w st)) =
                {| authToken := tkn body;
                   tokenExpiry := Some (Date_of_string w (tknex body));
                   cachedLeagues := match srvl body with
                                    | Some leagues => leagues
                                    | None => cachedLeagues (globals st)
                                    end |}).
  { unfold loginToKickbase. run_monad.
    rewrite Hf. cbv beta iota. rewrite Hok. cbv beta iota delta [negb].
    rewrite Hj. cbv beta iota.
    destruct (srvl body) as [leagues|]; cbv beta iota; rewrite Hd;
      cbv beta iota; split; reflexivity. }
  destruct H as (Ho & Hg). split; [exact Ho|]. split; [exact Hg|].
  apply sessionValidAt_invalid_date with (d := Date_of_string w (tknex body));
    [now rewrite Hg|exact Hd].
Qed.

(** X3. [ensureAuthenticated] sends no request when the session is valid at
    the clock reading it takes, and exactly one login request otherwise,
    whatever the outcome of that login; it never calls another endpoint nor
    the notification channel. *)
Theorem ensureAuthenticated_requests st :
  networkCalls (trace (ensureAuthenticated cfg w st))
  = (if sessionValidAt (globals st) (Date_now w (tick st)) then []
     else [(LoginEndpoint, loginRequest cfg)]) /\
  notifications (trace (ensureAuthenticated cfg w st)) = [].
Proof.
  split.
  - destruct (isTokenValid_run w st) as (Ho & _ & _).
    destruct (sessionValidAt (globals st) (Date_now w (tick st))).
    + now rewrite (ensureAuthenticated_valid cfg w st Ho).
    + rewrite (ensureAuthenticated_invalid cfg w st Ho), trace_tuple.
      unfold networkCalls. simpl. rewrite collect_app.
      fold (networkCalls
              (trace (loginToKickbase cfg w (final (isTokenValid w st))))).
      rewrite loginToKickbase_networkCalls.
      destruct (outcome (loginToKickbase cfg w _)); reflexivity.
  - apply (quiet_ensureAuthenticated cfg w asTwilio asTwilio_console);
      reflexivity.
Qed.

(** After [ensureAuthenticated] has returned, an expiry with a valid date is
    stored; the token is the one that passed the validity check or, after a
    login, whatever [tkn] the answer carried. *)
Lemma ensureAuthenticated_returns st :
  outcome (ensureAuthenticated cfg w st) = Return tt ->
  let g := globals (final (ensureAuthenticated cfg w st)) in
  (exists t, tokenExpiry g = Some {| timeValue := Some t |}) /\
  (sessionValidAt (globals st) (Date_now w (tick st)) = true ->
   g = globals st /\ exists token, authToken g = Some token) /\
  (sessionValidAt (globals st) (Date_now w (tick st)) = false ->
   exists body,
     outcome (loginToKickbase cfg w (final (isTokenValid w st))) = Return body /\
     authToken g = tkn body).
Proof.
  destruct (isTokenValid_run w st) as (Ho & Hg & _).
  destruct (sessionValidAt (globals st) (Date_now w (tick st))) eqn:Hv.
  - rewrite (ensureAuthenticated_valid cfg w st Ho), final_tuple, Hg.
    intros _. cbv zeta. unfold sessionValidAt in Hv.
    destruct (authToken (globals st)) as [token|] eqn:Htok; [|discriminate].
    destruct (truthy_string (Some token)); [|discriminate].
    destruct (tokenExpiry (globals st)) as [[[t|]]|]; try discriminate.
    split; [now exists t|]. split; [|discriminate].
    intros _. split; [reflexivity|now exists token].
  - rewrite (ensureAuthenticated_invalid cfg w st Ho).
    rewrite outcome_tuple, final_tuple.
    destruct (outcome (loginToKickbase cfg w (final (isTokenValid w st))))
      as [body|e] eqn:Hl; [|discriminate].
    intros _. cbv zeta.
    destruct (loginToKickbase_returns _ body Hl) as (r & _ & _ & _ & Hd & Hs).
    rewrite Hs. simpl.
    split.
    + destruct (Date_of_string w (tknex body)) as [[t|]]; [|now simpl in Hd].
      now exists t.
    + split; [discriminate|]. intros _. now exists body.
Qed.

(** X4. What a successful [ensureAuthenticated] guarantees.  An expiry
    holding a valid date is stored.  If the session was valid at the check,
    the script's variables are unchanged and hold a token.  Otherwise a
    login has returned and the stored token is the [tkn] of its answer:
    [null] when the answer carried none, so a token is stored only if the
    server sent one. *)
Theorem ensureAuthenticated_postcondition st :
  outcome (ensureAuthenticated cfg w st) = Return tt ->
  let g := globals (final (ensureAuthenticated cfg w st)) in
  (exists t, tokenExpiry g = Some {| timeValue := Some t |}) /\
  (sessionValidAt (globals st) (Date_now w (tick st)) = true ->
   g = globals st /\ exists token, authToken g = Some token) /\
  (sessionValidAt (globals st) (Date_now w (tick st)) = false ->
   exists response body,
     fetch_login w (tick (final (isTokenValid w st))) (loginRequest cfg)
     = inr response /\
     ok response = true /\ json response = inr body /\
     authToken g = tkn body).
Proof.
  intros Hr g.
  destruct (ensureAuthenticated_returns st Hr) as (He & Hvalid & Hlogin).
  split; [exact He|]. split; [exact Hvalid|].
  intros Hv. destruct (Hlogin Hv) as (body & Hb & Htok).
  destruct (loginToKickbase_returns _ body Hb)
    as (response & Hf & Hok & Hj & _ & _).
  now exists response, body.
Qed.

End SessionExtras.

(** ** Further properties of the budget resolver *)

Section ResolverExtras.

Variable cfg : Config.
Variable w : World.

(** The request one iteration of the endpoint loop sends. *)
Lemma tryEndpoint_request endpoint st :
  networkCalls (trace (tryEndpoint cfg w endpoint st))
  = [(LeaguesEndpoint,
      getRequest (KICKBASE_API_BASE cfg ++ endpoint)%string
        (authToken (globals st)))].
Proof.
  unfold tryEndpoint. run_monad. split_cases; reflexivity.
Qed.

(** One iteration of the endpoint loop: it returns a sequence only for an
    ok response whose body holds a non-empty sequence, which it has then
    cached; otherwise it leaves the script's variables alone. *)
Lemma tryEndpoint_result endpoint st r :
  outcome (tryEndpoint cfg w endpoint st) = Return r ->
  match r with
  | Some leagues =>
      leagues <> [] /\
      (exists response data,
         fetch_leagues w (tick st)
           (getRequest (KICKBASE_API_BASE cfg ++ endpoint)%string
              (authToken (globals st))) = inr response /\
         ok response = true /\ json response = inr data /\
         leagues = leaguesOf data) /\
      globals (final (tryEndpoint cfg w endpoint st)) =
        {| authToken := authToken (globals st);
           tokenExpiry := tokenExpiry (globals st);
           cachedLeagues := leagues |}
  | None => globals (final (tryEndpoint cfg w endpoint st)) = globals st
  end.
Proof.
  unfold tryEndpoint. run_monad.
  destruct (fetch_leagues w (tick st) _) as [e|response] eqn:Hf;
    cbv beta iota; [now intros [= <-]|].
  destruct (ok response) eqn:Hok; cbv beta iota.
  - destruct (json response) as [e|data] eqn:Hj; cbv beta iota;
      [now intros [= <-]|].
    destruct (0 <? List.length (leaguesOf data))%nat eqn:Hlen; cbv beta iota;
      intros [= <-]; [|reflexivity].
    repeat split.
    + intros Hnil. rewrite Hnil in Hlen. discriminate.
    + now exists response, data.
  - destruct (text response); cbv beta iota; now intros [= <-].
Qed.

Lemma tryEndpoints_result endpoints st leagues :
  outcome (tryEndpoints cfg w endpoints st) = Return leagues ->
  cachedLeagues (globals (final (tryEndpoints cfg w endpoints st))) = leagues /\
  authToken (globals (final (tryEndpoints cfg w endpoints st)))
  = authToken (globals st) /\
  tokenExpiry (globals (final (tryEndpoints cfg w endpoints st)))
  = tokenExpiry (globals st).
Proof.
  revert st. induction endpoints as [|endpoint rest IH]; intros st; simpl.
  - discriminate.
  - destruct (total_tryEndpoint cfg w endpoint st) as [r Hr].
    pose proof (tryEndpoint_result endpoint st r Hr) as Hres.
    rewrite (bind_Return _ _ _ r Hr), outcome_tuple, final_tuple.
    destruct r as [found|].
    + intros [= <-]. destruct Hres as (_ & _ & Hg).
      unfold ret at 1 2 3, final at 1 3 5; simpl. rewrite Hg. now simpl.
    + intros Hrest. destruct (IH _ Hrest) as (Hc & Ha & He).
      rewrite Hc, Ha, He, Hres. now repeat split.
Qed.

(** X5. Whatever [getKickbaseLeagues] returns is what the league cache holds
    afterwards: the cache and the returned sequence never diverge. *)
Theorem getKickbaseLeagues_result_is_cached st leagues :
  outcome (getKickbaseLeagues cfg w st) = Return leagues ->
  cachedLeagues (globals (final (getKickbaseLeagues cfg w st))) = leagues.
Proof.
  unfold getKickbaseLeagues.
  destruct (outcome_cases (outcome (ensureAuthenticated cfg w st)))
    as [[[] Ha]|[e He]].
  2:{ rewrite (bind_Throw _ _ _ e He), outcome_tuple. discriminate. }
  rewrite (bind_Return _ _ _ tt Ha), outcome_tuple, final_tuple.
  set (st1 := final (ensureAuthenticated cfg w st)).
  rewrite (bind_Return _ _ _ (globals st1)) by reflexivity.
  rewrite outcome_tuple, final_tuple.
  change (final (getGlobals st1)) with st1.
  destruct (0 <? List.length (cachedLeagues (globals st1)))%nat.
  - unfold bind, console, emit, ret, outcome, final; simpl.
    now intros [= <-].
  - intros Hr. apply (tryEndpoints_result _ _ _ Hr).
Qed.

(** X6. Whatever goes wrong at the leagues endpoint (a rejected request, a
    non-ok status, an unreadable or unparseable body, an empty list), the
    details are only logged: once authentication has succeeded, the one
    error [getKickbaseLeagues] can throw is "Could not fetch leagues from
    any known endpoint". *)
Theorem getKickbaseLeagues_single_error st e :
  outcome (ensureAuthenticated cfg w st) = Return tt ->
  outcome (getKickbaseLeagues cfg w st) = Throw e ->
  e = ErrorNew "Could not fetch leagues from any known endpoint".
Proof.
  intros Ha. unfold getKickbaseLeagues.
  rewrite (bind_Return _ _ _ tt Ha), outcome_tuple.
  set (st1 := final (ensureAuthenticated cfg w st)).
  rewrite (bind_Return _ _ _ (globals st1)) by reflexivity.
  rewrite outcome_tuple. change (final (getGlobals st1)) with st1.
  destruct (0 <? List.length (cachedLeagues (globals st1)))%nat.
  - unfold bind, console, emit, ret, outcome; simpl. discriminate.
  - unfold possibleEndpoints, tryEndpoints.
    destruct (total_tryEndpoint cfg w "/v4/leagues" st1) as [r Hr].
    rewrite (bind_Return _ _ _ r Hr), outcome_tuple.
    destruct r; unfold ret, throw, outcome; simpl; [discriminate|].
    now intros [= <-].
Qed.

(** X7. With a valid session and an empty cache, an ok answer of the leagues
    endpoint that holds a non-empty sequence, wrapped in [{leagues: ...}] or
    bare, is returned and cached, at the cost of one request carrying the
    stored token. *)
Theorem getKickbaseLeagues_from_endpoint st response data :
  let req := getRequest (KICKBASE_API_BASE cfg ++ "/v4/leagues")%string
               (authToken (globals st)) in
  sessionValidAt (globals st) (Date_now w (tick st)) = true ->
  cachedLeagues (globals st) = [] ->
  fetch_leagues w (S (tick st)) req = inr response ->
  ok response = true ->
  json response = inr data ->
  leaguesOf data <> [] ->
  outcome (getKickbaseLeagues cfg w st) = Return (leaguesOf data) /\
  cachedLeagues (globals (final (getKickbaseLeagues cfg w st)))
  = leaguesOf data /\
  networkCalls (trace (getKickbaseLeagues cfg w st)) = [(LeaguesEndpoint, req)].
Proof.
  intros req Hv Hc Hf Hok Hj Hne.
  destruct (isTokenValid_run w st) as (Ho & Hg & _). rewrite Hv in Ho.
  assert (Hst1 : final (isTokenValid w st) = next st).
  { unfold isTokenValid, sessionValidAt in *. run_monad.
    destruct (truthy_string (authToken (globals st))); [|discriminate].
    now destruct (tokenExpiry (globals st)). }
  unfold getKickbaseLeagues.
  rewrite (bind_Return _ _ _ tt)
    by now rewrite (ensureAuthenticated_valid cfg w st Ho).
  rewrite (ensureAuthenticated_valid cfg w st Ho).
  repeat (rewrite outcome_tuple || rewrite trace_tuple
          || rewrite final_tuple).
  rewrite Hst1.
  unfold possibleEndpoints, tryEndpoints, tryEndpoint. run_monad.
  change (globals (next st)) with (globals st). rewrite Hc.
  cbn [List.length Nat.ltb Nat.leb]. cbv beta iota.
  change (globals (next st)) with (globals st).
  change (tick (next st)) with (S (tick st)).
  fold req. rewrite Hf. cbv beta iota. rewrite Hok. cbv beta iota.
  rewrite Hj. cbv beta iota.
  destruct (leaguesOf data) as [|l ls]; [congruence|].
  repeat split; reflexivity.
Qed.

End ResolverExtras.

(** ** Further properties of budget resolution *)

Section BudgetExtras.

Variable cfg : Config.
Variable w : World.

Lemma networkCalls_app xs ys :
  networkCalls (xs ++ ys) = networkCalls xs ++ networkCalls ys.
Proof. apply collect_app. Qed.

(** Once authentication and league discovery have returned,
    [getKickbaseBudget] sends one request for the first league and turns the
    answer into its result. *)
Lemma getKickbaseBudget_after_leagues st primaryLeague rest :
  outcome (ensureAuthenticated cfg w st) = Return tt ->
  outcome (getKickbaseLeagues cfg w (final (ensureAuthenticated cfg w st)))
  = Return (Some primaryLeague :: rest) ->
  let st1 := final (ensureAuthenticated cfg w st) in
  let st2 := final (getKickbaseLeagues cfg w st1) in
  let req := budgetRequest cfg primaryLeague (authToken (globals st2)) in
  outcome (getKickbaseBudget cfg w st)
  = budgetOutcome (fetch_budget w (tick st2) req) /\
  networkCalls (trace (getKickbaseBudget cfg w st))
  = networkCalls (trace (ensureAuthenticated cfg w st))
    ++ networkCalls (trace (getKickbaseLeagues cfg w st1))
    ++ [(BudgetEndpoint, req)] /\
  globals (final (getKickbaseBudget cfg w st)) = globals st2.
Proof.
  intros Ha Hl st1 st2 req. subst st1 st2 req.
  unfold getKickbaseBudget, budgetOutcome, budgetRequest.
  unfold bind, try_catch, console, emit, ret, throw, fetch, getGlobals.
  destruct (ensureAuthenticated cfg w st) as [[o1 s1] ev1].
  rewrite outcome_tuple in Ha. rewrite final_tuple in *. subst o1.
  destruct (getKickbaseLeagues cfg w s1) as [[o2 s2] ev2].
  rewrite outcome_tuple in Hl. rewrite final_tuple, !trace_tuple. subst o2.
  cbn [List.length Nat.eqb nth_error]. cbv beta iota.
  destruct (fetch_budget w (tick s2) _) as [e|response]; cbv beta iota;
    [|destruct (ok response); cbv beta iota delta [negb];
      [unfold settle; destruct (json response) as [e|data]; cbv beta iota;
       unfold throw, ret|]];
    (repeat split; unfold trace, outcome, final; cbn [fst snd];
     try reflexivity);
    unfold networkCalls;
    repeat first [rewrite collect_app | progress cbn [collect asFetch app]];
    rewrite ?app_nil_r, <- ?app_assoc; reflexivity.
Qed.

(** With a valid session and a non-empty cache, league discovery is a
    clock reading and two console lines. *)
Lemma getKickbaseLeagues_cached st :
  sessionValidAt (globals st) (Date_now w (tick st)) = true ->
  cachedLeagues (globals st) <> [] ->
  outcome (getKickbaseLeagues cfg w st) = Return (cachedLeagues (globals st)) /\
  final (getKickbaseLeagues cfg w st) = next st /\
  networkCalls (trace (getKickbaseLeagues cfg w st)) = [].
Proof.
  intros Hv Hne.
  destruct (isTokenValid_run w st) as (Ho & Hg & _). rewrite Hv in Ho.
  assert (Hst1 : final (isTokenValid w st) = next st).
  { unfold isTokenValid, sessionValidAt in *. run_monad.
    destruct (truthy_string (authToken (globals st))); [|discriminate].
    now destruct (tokenExpiry (globals st)). }
  unfold getKickbaseLeagues.
  rewrite (bind_Return _ _ _ tt)
    by now rewrite (ensureAuthenticated_valid cfg w st Ho).
  rewrite (ensureAuthenticated_valid cfg w st Ho).
  repeat (rewrite outcome_tuple || rewrite trace_tuple || rewrite final_tuple).
  rewrite Hst1.
  unfold bind, getGlobals, console, emit, ret.
  change (globals (next st)) with (globals st).
  destruct (cachedLeagues (globals st)) as [|l ls]; [congruence|].
  repeat split.
Qed.

Lemma ensureAuthenticated_warm st :
  sessionValidAt (globals st) (Date_now w (tick st)) = true ->
  ensureAuthenticated cfg w st =
    (Return tt, next st, [EConsole LOG "Using existing valid token" []]).
Proof.
  intros Hv.
  destruct (isTokenValid_run w st) as (Ho & Hg & _). rewrite Hv in Ho.
  rewrite (ensureAuthenticated_valid cfg w st Ho). f_equal. f_equal.
  unfold isTokenValid, sessionValidAt in *. run_monad.
  destruct (truthy_string (authToken (globals st))); [|discriminate].
  now destruct (tokenExpiry (globals st)).
Qed.

(** X9. The warm path.  With a session that is valid at both clock readings
    and a non-empty cache whose first element is a league (not [null]),
    [getKickbaseBudget] sends a single request: to the
    budget endpoint of the first cached league, with the stored token as
    bearer.  A rejected request or an unparseable body is rethrown, a non-ok
    status becomes "Failed to get budget data: <status> <statusText>", and
    an ok answer yields its [b] field, or 0 when [b] is absent or 0.  The
    script's variables stay as they were. *)
Theorem getKickbaseBudget_warm st primaryLeague rest :
  sessionValidAt (globals st) (Date_now w (tick st)) = true ->
  sessionValidAt (globals st) (Date_now w (S (tick st))) = true ->
  cachedLeagues (globals st) = Some primaryLeague :: rest ->
  let req := budgetRequest cfg primaryLeague (authToken (globals st)) in
  outcome (getKickbaseBudget cfg w st)
  = budgetOutcome (fetch_budget w (S (S (tick st))) req) /\
  networkCalls (trace (getKickbaseBudget cfg w st)) = [(BudgetEndpoint, req)] /\
  globals (final (getKickbaseBudget cfg w st)) = globals st.
Proof.
  intros Hv1 Hv2 Hc req.
  pose proof (ensureAuthenticated_warm st Hv1) as He.
  assert (Ha : outcome (ensureAuthenticated cfg w st) = Return tt)
    by now rewrite He.
  assert (Hne : cachedLeagues (globals (next st)) <> [])
    by (change (globals (next st)) with (globals st); congruence).
  destruct (getKickbaseLeagues_cached (next st) Hv2 Hne) as (Hl & Hf & Hn).
  change (globals (next st)) with (globals st) in Hl. rewrite Hc in Hl.
  assert (Hl' : outcome (getKickbaseLeagues cfg w
                           (final (ensureAuthenticated cfg w st)))
                = Return (Some primaryLeague :: rest))
    by now rewrite He, final_tuple.
  destruct (getKickbaseBudget_after_leagues st primaryLeague rest Ha Hl')
    as (Ho & Hcalls & Hg).
  rewrite He, final_tuple, trace_tuple in *. rewrite Hf in *.
  rewrite Hn in Hcalls. repeat split; assumption.
Qed.

(** X8. Scenario A, the cold start.  When the first check finds no valid
    session, the login answer carries a non-empty league list whose first
    element is a league (not [null]) and the session is valid at the second
    check, [getKickbaseBudget] sends two
    requests, login and budget (for the first league of the login answer,
    with the new token) and makes of the budget answer what the warm path
    makes of it; the leagues endpoint is not called. *)
Theorem getKickbaseBudget_cold_start st body primaryLeague rest :
  let st0 := final (isTokenValid w st) in
  let st1 := final (loginToKickbase cfg w st0) in
  outcome (isTokenValid w st) = Return false ->
  outcome (loginToKickbase cfg w st0) = Return body ->
  srvl body = Some (Some primaryLeague :: rest) ->
  sessionValidAt (globals st1) (Date_now w (tick st1)) = true ->
  let req := budgetRequest cfg primaryLeague (tkn body) in
  outcome (getKickbaseBudget cfg w st)
  = budgetOutcome (fetch_budget w (S (tick st1)) req) /\
  networkCalls (trace (getKickbaseBudget cfg w st))
  = [(LoginEndpoint, loginRequest cfg); (BudgetEndpoint, req)].
Proof.
  intros st0 st1 Hinv Hlogin Hs Hv req.
  pose proof (ensureAuthenticated_invalid cfg w st Hinv) as He.
  cbv zeta in He. fold st0 in He. rewrite Hlogin in He. fold st1 in He.
  destruct (loginToKickbase_returns cfg w st0 body Hlogin)
    as (response & _ & _ & _ & _ & Hg).
  fold st1 in Hg. rewrite Hs in Hg.
  assert (Ha : outcome (ensureAuthenticated cfg w st) = Return tt)
    by now rewrite He.
  assert (Hne : cachedLeagues (globals st1) <> [])
    by (rewrite Hg; discriminate).
  destruct (getKickbaseLeagues_cached st1 Hv Hne) as (Hl & Hf & Hn).
  assert (Hfin : final (ensureAuthenticated cfg w st) = st1)
    by now rewrite He.
  assert (Hl' : outcome (getKickbaseLeagues cfg w
                           (final (ensureAuthenticated cfg w st)))
                = Return (Some primaryLeague :: rest)).
  { rewrite Hfin, Hl, Hg. reflexivity. }
  destruct (getKickbaseBudget_after_leagues st primaryLeague rest Ha Hl')
    as (Ho & Hcalls & _).
  rewrite Hfin, Hf in *.
  change (globals (next st1)) with (globals st1) in *.
  change (tick (next st1)) with (S (tick st1)) in *.
  rewrite Hg in Ho, Hcalls. cbn [authToken] in Ho, Hcalls.
  split; [exact Ho|].
  rewrite Hcalls, Hn, He, trace_tuple.
  unfold networkCalls at 1. cbn [collect asFetch]. rewrite collect_app.
  fold (networkCalls (trace (loginToKickbase cfg w st0))).
  rewrite (loginToKickbase_networkCalls cfg w st0). reflexivity.
Qed.

End BudgetExtras.

(** ** Further properties of a whole run *)

Lemma returns_bind_dep {A B} (m : M A) (k : A -> M B) (R : A -> Prop)
  (P : B -> Prop) :
  returns m R -> (forall a, R a -> returns (k a) P) -> returns (bind m k) P.
Proof.
  intros Hm Hk st x.
  destruct (outcome_cases (outcome (m st))) as [[a Ha]|[e He]].
  - rewrite (bind_Return m k st a Ha), outcome_tuple. apply Hk. eapply Hm, Ha.
  - rewrite (bind_Throw m k st e He), outcome_tuple. discriminate.
Qed.

Lemma returns_fetch {T} ep (oracle : nat -> Request -> HostError + Response T)
  req :
  returns (fetch ep oracle req) (fun r => exists t, oracle t req = inr r).
Proof.
  intros st r. unfold fetch.
  destruct (oracle (tick st) req) eqn:Ho; rewrite outcome_tuple;
    intros [= <-]. now exists (tick st).
Qed.

Lemma returns_settle {A} (x : HostError + A) :
  returns (settle x) (fun a => x = inr a).
Proof.
  intros st a. destruct x; unfold settle, throw, ret; rewrite outcome_tuple;
    now intros [= <-].
Qed.

Section RunExtras.

Variable cfg : Config.
Variable w : World.

(** Every budget [getKickbaseBudget] returns is accounted for by an ok
    answer of the budget endpoint. *)
Lemma getKickbaseBudget_reported :
  returns (getKickbaseBudget cfg w) (reported w).
Proof.
  unfold getKickbaseBudget.
  apply returns_bind; intros _.
  apply returns_try; [|intros e; apply returns_bind; intros _;
                       apply returns_throw].
  apply returns_bind; intros _.
  apply returns_bind; intros leagues.
  apply returns_bind; intros _.
  destruct (nth_error leagues 0) as [[primaryLeague|]|];
    [|apply returns_throw|apply returns_throw].
  apply returns_bind; intros _.
  apply returns_bind; intros g.
  eapply returns_bind_dep; [apply returns_fetch|].
  intros response [t Hf].
  destruct (ok response) eqn:Hok; cbn [negb].
  - apply returns_bind; intros _.
    eapply returns_bind_dep; [apply returns_settle|].
    intros budgetData Hj. cbv zeta.
    apply returns_bind; intros _.
    apply returns_ret.
    now exists t, (getRequest
                     (KICKBASE_API_BASE cfg ++ "/v4/leagues/"
                      ++ league_id primaryLeague ++ "/me/budget")%string
                     (authToken g)), response, budgetData.
  - eapply returns_bind_dep with (R := fun _ => False);
      [apply returns_throw|intros _ []].
Qed.

(** X10. An alert is sent only if an ok answer of the budget endpoint
    carried a negative [b]: no failure on the way, no missing field and no
    default can trigger a notification. *)
Theorem alert_requires_negative_report st0 :
  notifications (trace (runCheck cfg w st0)) <> [] ->
  exists t req response budgetData budget,
    fetch_budget w t req = inr response /\ ok response = true /\
    json response = inr budgetData /\
    b budgetData = Some budget /\ budget < 0 /\
    notifications (trace (runCheck cfg w st0)) = [alertMessage cfg budget].
Proof.
  intros Hn.
  destruct (outcome_cases
              (outcome (getKickbaseBudget cfg w (budgetCallState w st0))))
    as [[budget Hb]|[e He]].
  - rewrite (notifications_runCheck_resolved cfg w st0 budget Hb) in *.
    unfold KICKBASE_BUDGET_THRESHOLD in *.
    destruct (Z.ltb_spec budget 0) as [Hlt|]; [|congruence].
    destruct (getKickbaseBudget_reported _ _ Hb)
      as (t & req & response & budgetData & Hf & Hok & Hj & Hv).
    exists t, req, response, budgetData, budget.
    repeat split; try assumption.
    unfold number_or in Hv.
    destruct (b budgetData) as [v|]; [|lia].
    destruct (Z.eqb_spec v 0); [lia|congruence].
  - exfalso. apply Hn.
    rewrite (runCheck_failed cfg w st0 e He), trace_tuple.
    unfold notifications. rewrite !collect_app.
    pose proof (getKickbaseBudget_no_notification cfg w
                  (budgetCallState w st0)) as Hq.
    unfold notifications in Hq. now rewrite Hq.
Qed.

End RunExtras.

(** *** How many requests and notifications a run can make *)

Section BoundRules.

Context {A B C : Type}.
Variable f : Event -> option C.

Lemma bounded_quiet (m : M A) : quiet f m -> bounded f 0 m.
Proof. intros H st. now rewrite H. Qed.

Lemma bounded_le (m : M A) n n' :
  bounded f n m -> (n <= n')%nat -> bounded f n' m.
Proof. intros H Hle st. specialize (H st). lia. Qed.

Lemma bounded_bind (m : M A) (k : A -> M B) n1 n2 :
  bounded f n1 m -> (forall a, bounded f n2 (k a)) ->
  bounded f (n1 + n2) (bind m k).
Proof.
  intros Hm Hk st.
  destruct (outcome_cases (outcome (m st))) as [[a Ha]|[e He]].
  - rewrite (bind_Return m k st a Ha), trace_tuple, collect_app, length_app.
    specialize (Hm st). specialize (Hk a (final (m st))). lia.
  - rewrite (bind_Throw m k st e He), trace_tuple.
    specialize (Hm st). lia.
Qed.

Lemma bounded_try (m : M A) (h : JsError -> M A) n1 n2 :
  bounded f n1 m -> (forall e, bounded f n2 (h e)) ->
  bounded f (n1 + n2) (try_catch m h).
Proof.
  intros Hm Hh st.
  destruct (outcome_cases (outcome (m st))) as [[a Ha]|[e He]].
  - rewrite (try_Return m h st a Ha), trace_tuple.
    specialize (Hm st). lia.
  - rewrite (try_Throw m h st e He), trace_tuple, collect_app, length_app.
    specialize (Hm st). specialize (Hh e (final (m st))). lia.
Qed.

Lemma bounded_fetch ep (oracle : nat -> Request -> HostError + Response A)
  req c :
  (forall r, (List.length (collect f [EFetch ep r]) <= c)%nat) ->
  bounded f c (fetch ep oracle req).
Proof.
  intros H st. unfold fetch.
  destruct (oracle (tick st) req); rewrite trace_tuple; apply H.
Qed.

End BoundRules.

Section Bounds.

Variable cfg : Config.
Variable w : World.

Context {C : Type}.
Variable f : Event -> option C.
Variables cL cG cB cT : nat.

Hypothesis f_console : forall lvl template args,
  f (EConsole lvl template args) = None.
Hypothesis f_login : forall req,
  (List.length (collect f [EFetch LoginEndpoint req]) <= cL)%nat.
Hypothesis f_leagues : forall req,
  (List.length (collect f [EFetch LeaguesEndpoint req]) <= cG)%nat.
Hypothesis f_budget : forall req,
  (List.length (collect f [EFetch BudgetEndpoint req]) <= cB)%nat.
Hypothesis f_twilio : forall m,
  (List.length (collect f [ETwilio m]) <= cT)%nat.

Ltac silent :=
  apply bounded_quiet;
  repeat quiet_step ltac:(first [ apply quiet_console; apply f_console
                                | apply quiet_isTokenValid; intros;
                                  apply f_console ]).

Lemma bounded_loginToKickbase : bounded f cL (loginToKickbase cfg w).
Proof.
  unfold loginToKickbase.
  apply (bounded_bind f _ _ 0 cL); [silent|intros _].
  apply bounded_le with (n := (cL + 0)%nat); [|lia].
  apply bounded_try; [|intros e; silent].
  apply bounded_le with (n := (cL + 0)%nat); [|lia].
  apply bounded_bind; [now apply bounded_fetch|intros response; silent].
Qed.

Lemma bounded_ensureAuthenticated :
  bounded f cL (ensureAuthenticated cfg w).
Proof.
  unfold ensureAuthenticated.
  apply (bounded_bind f _ _ 0 cL); [silent|intros valid].
  destruct valid; cbn [negb]; [apply bounded_le with (n := 0%nat); [silent|lia]|].
  apply (bounded_bind f _ _ 0 cL); [silent|intros _].
  apply bounded_le with (n := (cL + 0)%nat); [|lia].
  apply bounded_try; [|intros e; silent].
  apply bounded_le with (n := (cL + 0)%nat); [|lia].
  apply bounded_bind; [apply bounded_loginToKickbase|intros body; silent].
Qed.

Lemma bounded_tryEndpoint endpoint :
  bounded f cG (tryEndpoint cfg w endpoint).
Proof.
  unfold tryEndpoint.
  apply (bounded_bind f _ _ 0 cG); [silent|intros _].
  apply bounded_le with (n := (cG + 0)%nat); [|lia].
  apply bounded_try; [|intros e; silent].
  apply (bounded_bind f _ _ 0 cG); [silent|intros g].
  apply bounded_le with (n := (cG + 0)%nat); [|lia].
  apply bounded_bind; [now apply bounded_fetch|intros response; silent].
Qed.

Lemma bounded_getKickbaseLeagues :
  bounded f (cL + cG) (getKickbaseLeagues cfg w).
Proof.
  unfold getKickbaseLeagues.
  apply bounded_bind; [apply bounded_ensureAuthenticated|intros _].
  apply (bounded_bind f _ _ 0 cG); [silent|intros g].
  destruct (0 <? List.length (cachedLeagues g))%nat.
  - apply bounded_le with (n := 0%nat); [silent|lia].
  - unfold possibleEndpoints, tryEndpoints.
    apply bounded_le with (n := (cG + 0)%nat); [|lia].
    apply bounded_bind; [apply bounded_tryEndpoint|intros r].
    destruct r; silent.
Qed.

Lemma bounded_getKickbaseBudget :
  bounded f (cL + (cL + cG) + cB) (getKickbaseBudget cfg w).
Proof.
  unfold getKickbaseBudget.
  apply (bounded_bind f _ _ 0 (cL + (cL + cG) + cB)); [silent|intros _].
  apply bounded_le with (n := (cL + (cL + cG) + cB + 0)%nat); [|lia].
  apply bounded_try; [|intros e; silent].
  apply bounded_le with (n := (cL + ((cL + cG) + cB))%nat); [|lia].
  apply bounded_bind; [apply bounded_ensureAuthenticated|intros _].
  apply bounded_bind; [apply bounded_getKickbaseLeagues|intros leagues].
  apply (bounded_bind f _ _ 0 cB); [silent|intros _].
  destruct (nth_error leagues 0) as [[primaryLeague|]|];
    [|apply bounded_le with (n := 0%nat); [silent|lia]
     |apply bounded_le with (n := 0%nat); [silent|lia]].
  apply (bounded_bind f _ _ 0 cB); [silent|intros _].
  apply (bounded_bind f _ _ 0 cB); [silent|intros g].
  apply bounded_le with (n := (cB + 0)%nat); [|lia].
  apply bounded_bind; [now apply bounded_fetch|intros response; silent].
Qed.

Lemma bounded_sendWhatsappAlert budget :
  bounded f cT (sendWhatsappAlert cfg w budget).
Proof.
  unfold sendWhatsappAlert.
  apply (bounded_bind f _ _ 0 cT); [silent|intros _].
  apply bounded_le with (n := (cT + 0)%nat); [|lia].
  apply bounded_try; [|intros e; silent].
  apply bounded_le with (n := (cT + 0)%nat); [|lia].
  apply bounded_bind; [|intros sid; silent].
  intros st. unfold messagesCreate.
  destruct (messages_create w (tick st) (alertMessage cfg budget));
    rewrite trace_tuple; apply f_twilio.
Qed.

Lemma bounded_runCheck :
  bounded f (cL + (cL + cG) + cB + cT) (runCheck cfg w).
Proof.
  unfold runCheck.
  apply (bounded_bind f _ _ 0 (cL + (cL + cG) + cB + cT)); [silent|intros _].
  apply bounded_le with (n := (cL + (cL + cG) + cB + cT + 0)%nat); [|lia].
  apply bounded_try; [|intros e; silent].
  apply bounded_bind; [apply bounded_getKickbaseBudget|intros currentBudget].
  destruct (currentBudget <? KICKBASE_BUDGET_THRESHOLD);
    [|apply bounded_le with (n := 0%nat); [silent|lia]].
  apply (bounded_bind f _ _ 0 cT); [silent|intros _].
  apply bounded_sendWhatsappAlert.
Qed.

End Bounds.

Section RunBounds.

Variable cfg : Config.
Variable w : World.

Lemma total_runCheck : total (runCheck cfg w).
Proof.
  unfold runCheck, runCheckBanner.
  apply total_bind.
  - apply total_bind; [apply total_now|intros t; apply total_console].
  - intros _. apply total_try. intros e. apply total_console.
Qed.

(** X11. A run never throws: [runCheck] always returns, whatever the server,
    the clock and the notification channel do.  Nothing is retried: a run
    sends at most two login requests, one request to the leagues endpoint,
    one to the budget endpoint, and at most one notification. *)
Theorem run_is_bounded st0 :
  outcome (runCheck cfg w st0) = Return tt /\
  (List.length (loginCalls (trace (runCheck cfg w st0))) <= 2)%nat /\
  (List.length (leaguesCalls (trace (runCheck cfg w st0))) <= 1)%nat /\
  (List.length (budgetCalls (trace (runCheck cfg w st0))) <= 1)%nat /\
  (List.length (notifications (trace (runCheck cfg w st0))) <= 1)%nat.
Proof.
  split.
  - destruct (total_runCheck st0) as [[] H]. exact H.
  - repeat split.
    + apply (bounded_runCheck cfg w asLoginFetch 1 0 0 0); intros;
        simpl; auto.
    + apply (bounded_runCheck cfg w asLeaguesFetch 0 1 0 0); intros;
        simpl; auto.
    + apply (bounded_runCheck cfg w asBudgetFetch 0 0 1 0); intros;
        simpl; auto.
    + apply (bounded_runCheck cfg w asTwilio 0 0 0 1); intros;
        simpl; auto.
Qed.

End RunBounds.

(** ** Further properties of the alert payload *)

Lemma plain_app s1 s2 : plain (s1 ++ s2)%string = plain s1 && plain s2.
Proof.
  induction s1 as [|c s1 IH]; simpl; [reflexivity|].
  now rewrite IH, andb_assoc.
Qed.

Lemma plainChar_digit k :
  (k < 10)%nat -> plainChar (ascii_of_nat (48 + k)) = true.
Proof.
  intros H.
  do 10 (destruct k as [|k]; [reflexivity|]). lia.
Qed.

Lemma plain_digits_fuel fuel n acc :
  plain acc = true -> plain (JSNumber.digits_fuel fuel n acc) = true.
Proof.
  revert n acc. induction fuel as [|fuel IH]; intros n acc Hacc;
    cbn [JSNumber.digits_fuel]; [exact Hacc|].
  destruct (n <=? 0); [exact Hacc|].
  apply IH. cbn [plain]. rewrite Hacc, andb_true_r.
  apply plainChar_digit.
  pose proof (Z.mod_pos_bound n 10 ltac:(lia)). lia.
Qed.

Lemma plain_digits n : plain (JSNumber.digits n) = true.
Proof. now apply plain_digits_fuel. Qed.

Lemma plain_Z_toString n : plain (JSNumber.Z_toString n) = true.
Proof.
  unfold JSNumber.Z_toString.
  destruct (n =? 0); [reflexivity|].
  destruct (n <? 0); [|apply plain_digits].
  rewrite plain_app, plain_digits. reflexivity.
Qed.

Lemma plain_zeros k : plain (JSNumber.zeros k) = true.
Proof. induction k; simpl; auto. Qed.

Lemma plain_take k s : plain s = true -> plain (JSNumber.take k s) = true.
Proof.
  revert s. induction k as [|k IH]; intros [|c s]; simpl; auto.
  intros H. apply andb_true_iff in H as [Hc Hs]. now rewrite Hc, IH.
Qed.

Lemma plain_drop k s : plain s = true -> plain (JSNumber.drop k s) = true.
Proof.
  revert s. induction k as [|k IH]; intros [|c s]; simpl; auto.
  intros H. apply andb_true_iff in H as [Hc Hs]. now apply IH.
Qed.

Lemma plain_fixed_digits f n : plain (JSNumber.fixed_digits f n) = true.
Proof.
  unfold JSNumber.fixed_digits.
  set (m0 := if n =? 0 then "0" else JSNumber.digits n).
  assert (H0 : plain m0 = true)
    by (unfold m0; destruct (n =? 0); [reflexivity|apply plain_digits]).
  set (m1 := if (String.length m0 <=? f)%nat
             then (JSNumber.zeros (f + 1 - String.length m0) ++ m0)%string
             else m0).
  assert (H1 : plain m1 = true).
  { unfold m1. destruct (String.length m0 <=? f)%nat; [|exact H0].
    now rewrite plain_app, plain_zeros, H0. }
  cbv zeta. destruct f; [exact H1|].
  rewrite !plain_app, plain_take, plain_drop by exact H1. reflexivity.
Qed.

Lemma plain_exponential x v : plain (JSNumber.exponential x v) = true.
Proof.
  unfold JSNumber.exponential.
  destruct (JSNumber.shortest _ x v _ 1) as [[s n] k].
  rewrite !plain_app, plain_Z_toString.
  destruct (k =? 1).
  - now rewrite plain_digits.
  - rewrite !plain_app, plain_take, plain_drop by apply plain_digits.
    reflexivity.
Qed.

Lemma plain_toFixed x f : plain (JSNumber.toFixed x f) = true.
Proof.
  unfold JSNumber.toFixed.
  destruct x as [s|[|]| |[|] m e]; try reflexivity;
    try apply plain_fixed_digits;
    destruct (JSNumber.frac m e) as [num den];
    destruct (10 ^ 21 * den <=? num);
    rewrite plain_app, ?plain_exponential, ?plain_fixed_digits; reflexivity.
Qed.

Lemma escape_plain s : plain s = true -> JSON.escape s = s.
Proof.
  induction s as [|c s IH]; simpl; [reflexivity|].
  intros H. apply andb_true_iff in H as [Hc Hs]. rewrite (IH Hs).
  unfold plainChar in Hc. unfold JSON.escape_char.
  apply andb_true_iff in Hc as [Hc H92]. apply andb_true_iff in Hc as [H32 H34].
  apply Nat.leb_le in H32. apply negb_true_iff in H34, H92.
  rewrite H34, H92.
  repeat match goal with
         | |- context [(nat_of_ascii c =? ?k)%nat] =>
             destruct (Nat.eqb_spec (nat_of_ascii c) k); [lia|]
         end.
  destruct (Nat.ltb_spec (nat_of_ascii c) 32); [lia|]. reflexivity.
Qed.

(** X13. Whatever the budget, its rendering needs no JSON escaping: the
    [contentVariables] text handed to the channel is the rendering of the
    budget and the deadline "20:30", each between plain double quotes,
    under the keys 1 and 2. *)
Theorem alert_payload_is_verbatim (cfg : Config) (budget : Z) :
  let q := String JSON.dquote "" in
  msg_contentVariables (alertMessage cfg budget)
  = ("{" ++ q ++ "1" ++ q ++ ":" ++ q ++ formatMillions budget ++ q ++ ","
     ++ q ++ "2" ++ q ++ ":" ++ q ++ "20:30" ++ q ++ "}")%string.
Proof.
  assert (H : plain (formatMillions budget) = true)
    by (unfold formatMillions; now rewrite plain_app, plain_toFixed).
  cbv zeta. unfold alertMessage, msg_contentVariables, JSON.stringify,
    JSON.members, JSON.quote.
  rewrite (escape_plain _ H). simpl.
  repeat (f_equal; []). 
  generalize (formatMillions budget). intros s.
  induction s as [|c s IH]; simpl; [reflexivity|]. now rewrite <- IH.
Qed.

(** X12. Every deficit below 5000 is rendered as minus zero millions: for a
    budget strictly between -5000 and 0 the alert reads "-0.00M". *)
Theorem small_deficits_render_as_zero (budget : Z) :
  -5000 < budget < 0 -> formatMillions budget = "-0.00M".
Proof.
  intros H.
  assert (Hall : forallb
            (fun k => String.eqb (formatMillions (- Z.of_nat k - 1)) "-0.00M")
            (seq 0 (Z.to_nat 4999)) = true) by (vm_compute; reflexivity).
  rewrite forallb_forall in Hall.
  specialize (Hall (Z.to_nat (- budget - 1))).
  replace (- Z.of_nat (Z.to_nat (- budget - 1)) - 1) with budget in Hall
    by lia.
  apply String.eqb_eq, Hall, in_seq. lia.
Qed.



(** ** Requests carry a stored token *)

Section TokenRules.

Context {A B : Type}.
Variable P : string -> Prop.

Lemma keepsToken_ret (a : A) : keepsToken P (ret a).
Proof. intros st H. split; [exact H|constructor]. Qed.

Lemma keepsToken_throw e : keepsToken P (@throw A e).
Proof. intros st H. split; [exact H|constructor]. Qed.

Lemma keepsToken_bind (m : M A) (k : A -> M B) :
  keepsToken P m -> (forall a, keepsToken P (k a)) -> keepsToken P (bind m k).
Proof.
  intros Hm Hk st H. destruct (Hm st H) as (H1 & T1).
  destruct (outcome_cases (outcome (m st))) as [[a Ha]|[e He]].
  - rewrite (bind_Return m k st a Ha), final_tuple, trace_tuple.
    destruct (Hk a _ H1) as (H2 & T2). split; [exact H2|].
    apply Forall_app. now split.
  - rewrite (bind_Throw m k st e He), final_tuple, trace_tuple. now split.
Qed.

Lemma keepsToken_try (m : M A) (h : JsError -> M A) :
  keepsToken P m -> (forall e, keepsToken P (h e)) ->
  keepsToken P (try_catch m h).
Proof.
  intros Hm Hh st H. destruct (Hm st H) as (H1 & T1).
  destruct (outcome_cases (outcome (m st))) as [[a Ha]|[e He]].
  - rewrite (try_Return m h st a Ha), final_tuple, trace_tuple. now split.
  - rewrite (try_Throw m h st e He), final_tuple, trace_tuple.
    destruct (Hh e _ H1) as (H2 & T2). split; [exact H2|].
    apply Forall_app. now split.
Qed.

(** The value read from the script's variables holds such a token. *)
Lemma keepsToken_get (k : Globals -> M B) :
  (forall g, (exists token, authToken g = Some token /\ P token) ->
             keepsToken P (k g)) ->
  keepsToken P (bind getGlobals k).
Proof.
  intros Hk st H.
  rewrite (bind_Return getGlobals k st (globals st)) by reflexivity.
  rewrite final_tuple, trace_tuple.
  change (final (getGlobals st)) with st.
  change (trace (getGlobals st)) with (@nil Event). cbn [app].
  exact (Hk (globals st) H st H).
Qed.

Lemma keepsToken_fetch ep (oracle : nat -> Request -> HostError + Response A)
  req :
  authorizedBy P (EFetch ep req) -> keepsToken P (fetch ep oracle req).
Proof.
  intros Ha st H. unfold fetch.
  destruct (oracle (tick st) req); rewrite final_tuple, trace_tuple;
    (split; [exact H|now repeat constructor]).
Qed.

End TokenRules.

Section TokenLeaves.

Variable P : string -> Prop.

Lemma keepsToken_console lvl template args :
  keepsToken P (console lvl template args).
Proof. intros st H. split; [exact H|now repeat constructor]. Qed.

Lemma keepsToken_setGlobals g :
  (exists token, authToken g = Some token /\ P token) ->
  keepsToken P (setGlobals g).
Proof. intros Hg st H. split; [exact Hg|constructor]. Qed.

Lemma keepsToken_settle {A} (r : HostError + A) : keepsToken P (settle r).
Proof. destruct r; [apply keepsToken_throw|apply keepsToken_ret]. Qed.

Lemma keepsToken_now w : keepsToken P (now w).
Proof. intros st H. split; [exact H|constructor]. Qed.

Lemma authorized_with_token ep url token :
  P token -> authorizedBy P (EFetch ep (getRequest url (Some token))).
Proof. intros H. destruct ep; simpl; eauto. Qed.

Lemma authorized_of_quiet evs :
  collect asLeaguesFetch evs = [] -> collect asBudgetFetch evs = [] ->
  Forall (authorizedBy P) evs.
Proof.
  induction evs as [|e evs IH]; [constructor|].
  destruct e as [lvl template args|[| |] req|m]; simpl;
    try discriminate; intros H1 H2; constructor; simpl; auto.
Qed.

End TokenLeaves.

Ltac token_step known :=
  first
    [ solve [known]
    | apply keepsToken_get; intros ? ?
    | apply keepsToken_bind; [|intro]
    | apply keepsToken_try; [|intro]
    | apply keepsToken_ret
    | apply keepsToken_throw
    | apply keepsToken_console
    | apply keepsToken_settle
    | apply keepsToken_now
    | apply keepsToken_setGlobals; cbn [authToken]; assumption
    | match goal with
      | H : exists token, authToken ?g = Some token /\ _
        |- keepsToken _ (fetch _ _ (getRequest _ (authToken ?g))) =>
          let token := fresh "token" in
          let Ht := fresh "Ht" in
          let HP := fresh "HP" in
          destruct H as (token & Ht & HP); rewrite Ht;
          apply keepsToken_fetch, authorized_with_token; exact HP
      end
    | match goal with
      | |- keepsToken _ (if ?c then _ else _) => destruct c
      | |- keepsToken _ (match ?x with _ => _ end) => destruct x
      end ].

Section Tokens.

Variable cfg : Config.
Variable w : World.
Variable P : string -> Prop.

(** Every ok login answer that parses carries a token, of provenance [P]. *)
Hypothesis login_tokens : forall t req response body,
  fetch_login w t req = inr response -> ok response = true ->
  json response = inr body ->
  exists token, tkn body = Some token /\ P token.

Lemma keepsToken_loginToKickbase : keepsToken P (loginToKickbase cfg w).
Proof.
  intros st H. split.
  - destruct (outcome_cases (outcome (loginToKickbase cfg w st)))
      as [[body Hb]|[e He]].
    + destruct (loginToKickbase_returns cfg w st body Hb)
        as (response & Hf & Hok & Hj & _ & Hg).
      unfold holdsToken. rewrite Hg. cbn [authToken].
      exact (login_tokens _ _ _ _ Hf Hok Hj).
    + revert He. unfold loginToKickbase, holdsToken. run_monad.
      destruct (fetch_login w (tick st) (loginRequest cfg))
        as [h|response] eqn:Hf; cbv beta iota; [intros _; exact H|].
      destruct (ok response) eqn:Hok; cbv beta iota delta [negb].
      2:{ destruct (text response); cbv beta iota; intros _; exact H. }
      destruct (json response) as [h|loginData] eqn:Hj; cbv beta iota;
        [intros _; exact H|].
      destruct (srvl loginData); cbv beta iota;
        destruct (timeValue (Date_of_string w (tknex loginData)));
        cbv beta iota; try discriminate; intros _; cbn [globals authToken];
        exact (login_tokens _ _ _ _ Hf Hok Hj).
  - apply authorized_of_quiet.
    + now apply (quiet_loginToKickbase cfg w asLeaguesFetch).
    + now apply (quiet_loginToKickbase cfg w asBudgetFetch).
Qed.

Lemma keepsToken_isTokenValid : keepsToken P (isTokenValid w).
Proof. unfold isTokenValid. repeat token_step fail. Qed.

Lemma keepsToken_ensureAuthenticated :
  keepsToken P (ensureAuthenticated cfg w).
Proof.
  unfold ensureAuthenticated.
  repeat token_step ltac:(first [ apply keepsToken_isTokenValid
                                | apply keepsToken_loginToKickbase ]).
Qed.

Lemma keepsToken_tryEndpoint endpoint :
  keepsToken P (tryEndpoint cfg w endpoint).
Proof. unfold tryEndpoint. repeat token_step fail. Qed.

Lemma keepsToken_tryEndpoints endpoints :
  keepsToken P (tryEndpoints cfg w endpoints).
Proof.
  induction endpoints as [|endpoint rest IH]; simpl.
  - apply keepsToken_throw.
  - repeat token_step ltac:(first [ apply keepsToken_tryEndpoint
                                  | exact IH ]).
Qed.

Lemma keepsToken_getKickbaseLeagues :
  keepsToken P (getKickbaseLeagues cfg w).
Proof.
  unfold getKickbaseLeagues.
  apply keepsToken_bind; [apply keepsToken_ensureAuthenticated|intros _].
  repeat token_step ltac:(apply keepsToken_tryEndpoints).
Qed.

End Tokens.

Section TokenClaims.

Variable cfg : Config.
Variable w : World.

(** The server never answers a login with a null token. *)
Hypothesis login_has_token : forall t req response body,
  fetch_login w t req = inr response -> ok response = true ->
  json response = inr body -> tkn body <> None.

Lemma login_tokens_known g0 t req response body :
  fetch_login w t req = inr response -> ok response = true ->
  json response = inr body ->
  exists token, tkn body = Some token /\ knownToken w g0 token.
Proof.
  intros Hf Hok Hj.
  destruct (tkn body) as [token|] eqn:Htok;
    [|now destruct (login_has_token _ _ _ _ Hf Hok Hj)].
  exists token. split; [reflexivity|]. right.
  now exists t, req, response, body.
Qed.

Lemma ensureAuthenticated_authorized g0 st :
  Forall (authorizedBy (knownToken w g0)) (trace (ensureAuthenticated cfg w st)).
Proof.
  apply authorized_of_quiet.
  - now apply (quiet_ensureAuthenticated cfg w asLeaguesFetch).
  - now apply (quiet_ensureAuthenticated cfg w asBudgetFetch).
Qed.

Lemma ensureAuthenticated_holdsToken st :
  outcome (ensureAuthenticated cfg w st) = Return tt ->
  holdsToken (knownToken w (globals st)) (final (ensureAuthenticated cfg w st)).
Proof.
  intros Ha.
  destruct (ensureAuthenticated_returns cfg w st Ha) as (_ & Hvalid & Hlogin).
  destruct (sessionValidAt (globals st) (Date_now w (tick st))).
  - destruct (Hvalid eq_refl) as (Hg & token & Htok).
    exists token. split; [exact Htok|]. left. now rewrite <- Hg.
  - destruct (Hlogin eq_refl) as (body & Hb & Htok).
    destruct (loginToKickbase_returns cfg w _ body Hb)
      as (response & Hf & Hok & Hj & _ & _).
    destruct (login_tokens_known (globals st) _ _ _ _ Hf Hok Hj)
      as (token & Ht & Hk).
    exists token. split; [congruence|exact Hk].
Qed.

Lemma getKickbaseBudget_authorized st :
  Forall (authorizedBy (knownToken w (globals st)))
    (trace (getKickbaseBudget cfg w st)).
Proof.
  unfold getKickbaseBudget.
  rewrite (bind_Return _ _ st tt) by reflexivity. rewrite trace_tuple.
  change (final (console LOG "Fetching Kickbase budget..." [] st)) with st.
  apply Forall_app. split; [now repeat constructor|].
  match goal with
  | |- Forall _ (trace (try_catch (bind _ ?k) _ _)) => set (rest := k)
  end.
  assert (Hrest : forall u, keepsToken (knownToken w (globals st)) (rest u)).
  { intros u. unfold rest.
    apply keepsToken_bind;
      [apply keepsToken_getKickbaseLeagues, login_tokens_known
      |intros leagues].
    repeat token_step fail. }
  assert (Hbody : Forall (authorizedBy (knownToken w (globals st)))
                    (trace (bind (ensureAuthenticated cfg w) rest st))).
  { destruct (outcome_cases (outcome (ensureAuthenticated cfg w st)))
      as [[[] Ha]|[e He]].
    - rewrite (bind_Return _ _ _ tt Ha), trace_tuple.
      apply Forall_app. split; [apply ensureAuthenticated_authorized|].
      apply (Hrest tt). exact (ensureAuthenticated_holdsToken st Ha).
    - rewrite (bind_Throw _ _ _ e He), trace_tuple.
      apply ensureAuthenticated_authorized. }
  destruct (outcome_cases
              (outcome (bind (ensureAuthenticated cfg w) rest st)))
    as [[budget Hb]|[e He]].
  - now rewrite (try_Return _ _ _ budget Hb), trace_tuple.
  - rewrite (try_Throw _ _ _ e He), trace_tuple.
    apply Forall_app. split; [exact Hbody|]. now repeat constructor.
Qed.

(** X14. Provided the server never answers a login with a null token, no
    request leaves without a token: every request a run sends to the leagues
    or to the budget endpoint is a GET whose Authorization header reads
    "Bearer <token>", for a token that was stored when the run started or
    that a login answer handed out. *)
Theorem requests_carry_a_token st0 ep req :
  In (EFetch ep req) (trace (runCheck cfg w st0)) ->
  ep <> LoginEndpoint ->
  exists url token,
    req = getRequest url (Some token) /\
    In ("Authorization", ("Bearer " ++ token)%string) (req_headers req) /\
    (authToken (globals st0) = Some token \/ issued w token).
Proof.
  intros Hin Hep.
  assert (Hall : Forall (authorizedBy (knownToken w (globals st0)))
                   (trace (runCheck cfg w st0))).
  { pose proof (getKickbaseBudget_authorized (budgetCallState w st0)) as Hb.
    change (globals (budgetCallState w st0)) with (globals st0) in Hb.
    destruct (outcome_cases
                (outcome (getKickbaseBudget cfg w (budgetCallState w st0))))
      as [[budget Hr]|[e He]].
    - rewrite (runCheck_resolved cfg w st0 budget Hr), trace_tuple.
      apply Forall_app. split; [now repeat constructor|].
      apply Forall_app. split; [exact Hb|].
      unfold checkAndAlert, sendWhatsappAlert, messagesCreate.
      unfold bind, try_catch, console, emit.
      destruct (budget <? KICKBASE_BUDGET_THRESHOLD);
        [|now repeat constructor].
      destruct (messages_create w _ _); now repeat constructor.
    - rewrite (runCheck_failed cfg w st0 e He), trace_tuple.
      apply Forall_app. split; [now repeat constructor|].
      apply Forall_app. split; [exact Hb|].
      now repeat constructor. }
  rewrite Forall_forall in Hall. specialize (Hall _ Hin).
  destruct ep; [congruence| |]; simpl in Hall;
    destruct Hall as (url & token & -> & Hk); exists url, token;
    (split; [reflexivity|split; [simpl; auto|exact Hk]]).
Qed.

End TokenClaims.

(** ** When login does not help *)

Section LoginTrouble.

Variable cfg : Config.
Variable w : World.

(** X16. The counterpart of C4: when the session that a first
    [ensureAuthenticated] obtained is not valid at the second call (the
    token is empty or already within five minutes of its expiry), the second
    call logs in again, so the two calls send two login requests. *)
Theorem ensureAuthenticated_logs_in_again st :
  let r1 := ensureAuthenticated cfg w st in
  let r2 := ensureAuthenticated cfg w (final r1) in
  outcome (isTokenValid w st) = Return false ->
  outcome (isTokenValid w (final r1)) = Return false ->
  networkCalls (trace r1 ++ trace r2)
  = [(LoginEndpoint, loginRequest cfg); (LoginEndpoint, loginRequest cfg)].
Proof.
  intros r1 r2 H1 H2. subst r1 r2.
  unfold networkCalls. rewrite collect_app.
  rewrite (ensureAuthenticated_invalid cfg w _ H2), trace_tuple.
  rewrite (ensureAuthenticated_invalid cfg w st H1), trace_tuple.
  cbn [collect asFetch]. rewrite !collect_app.
  repeat match goal with
         | |- context [collect asFetch (trace (loginToKickbase cfg w ?s))] =>
             change (collect asFetch (trace (loginToKickbase cfg w s)))
               with (networkCalls (trace (loginToKickbase cfg w s)));
             rewrite (loginToKickbase_networkCalls cfg w s)
         end.
  repeat match goal with
         | |- context [match ?o with Return _ => _ | Throw _ => _ end] =>
             destruct o
         end; reflexivity.
Qed.

(** X17. Rejected credentials.  In a run that starts without a token and
    whose login is answered with a non-ok status, the only request is that
    login, no notification is sent and the script's variables are left as
    they were.  The fatal error the run driver reports is "Login failed:
    <status> <statusText>" when the body of the answer can be read, and the
    rejection of the body read when it cannot. *)
Theorem rejected_login_ends_the_run st0 response :
  authToken (globals st0) = None ->
  fetch_login w (S (tick st0)) (loginRequest cfg) = inr response ->
  ok response = false ->
  fatalErrors (trace (runCheck cfg w st0))
  = [match text response with
     | inr _ =>
         ErrorNew ("Login failed: " ++ JSNumber.Z_toString (status response)
                   ++ " " ++ statusText response)%string
     | inl h => Rejected h
     end] /\
  networkCalls (trace (runCheck cfg w st0))
  = [(LoginEndpoint, loginRequest cfg)] /\
  notifications (trace (runCheck cfg w st0)) = [] /\
  globals (final (runCheck cfg w st0)) = globals st0.
Proof.
  intros Htok Hf Hok.
  set (err := match text response with
              | inr _ =>
                  ErrorNew ("Login failed: "
                            ++ JSNumber.Z_toString (status response)
                            ++ " " ++ statusText response)%string
              | inl h => Rejected h
              end).
  assert (Hb : exists evs,
    getKickbaseBudget cfg w (budgetCallState w st0)
    = (Throw err, next (next st0), evs) /\
    networkCalls evs = [(LoginEndpoint, loginRequest cfg)] /\
    notifications evs = [] /\ fatalErrors evs = []).
  { unfold getKickbaseBudget, ensureAuthenticated, isTokenValid,
      loginToKickbase, budgetCallState, runCheckBanner.
    unfold bind, try_catch, fetch, console, emit, settle, getGlobals, ret,
      throw, now, final.
    cbn [fst snd next globals tick]. rewrite Htok.
    cbn [truthy_string negb fst snd next globals tick].
    rewrite Hf. cbv beta iota. rewrite Hok. cbn [negb].
    subst err. destruct (text response) as [h|body]; cbv beta iota;
      eexists; (split; [reflexivity|repeat split]). }
  destruct Hb as (evs & Hb & Hn & Ht & Hfatal).
  assert (Ho : outcome (getKickbaseBudget cfg w (budgetCallState w st0))
               = Throw err) by now rewrite Hb.
  rewrite (runCheck_failed cfg w st0 err Ho), Hb.
  rewrite !trace_tuple, !final_tuple.
  unfold networkCalls, notifications, fatalErrors in *.
  rewrite !collect_app, Hn, Ht, Hfatal.
  repeat split.
Qed.

End LoginTrouble.

(** ** Worked instances of the further properties *)

Lemma login_success_stores_session_witness :
  let w := Sample.inlineLeagues 0 (inr "SM1") in
  let body := Sample.loginBody (Some [Some Sample.league]) in
  let g := globals (final (loginToKickbase Sample.config w Sample.start)) in
  authToken g = tkn body /\
  tokenExpiry g = Some (Date_of_string w (tknex body)) /\
  (exists t, timeValue (Date_of_string w (tknex body)) = Some t) /\
  cachedLeagues g = match srvl body with
                    | Some leagues => leagues
                    | None => cachedLeagues (globals Sample.start)
                    end /\
  (exists response,
     fetch_login w (tick Sample.start) (loginRequest Sample.config)
     = inr response /\
     ok response = true /\ json response = inr body) /\
  networkCalls (trace (loginToKickbase Sample.config w Sample.start))
  = [(LoginEndpoint, loginRequest Sample.config)].
Proof.
  apply (login_success_stores_session Sample.config
           (Sample.inlineLeagues 0 (inr "SM1")) Sample.start
           (Sample.loginBody (Some [Some Sample.league]))).
  vm_compute. reflexivity.
Defined.

Lemma login_invalid_expiry_leaves_session_witness :
  let body := {| tkn := Some "jwt-token"; tknex := "soon"; srvl := None |} in
  let r := loginToKickbase Sample.config Sample.badExpiry Sample.start in
  outcome r = Throw RangeErrorInvalidTime /\
  globals (final r) =
    {| authToken := tkn body;
       tokenExpiry := Some (Date_of_string Sample.badExpiry (tknex body));
       cachedLeagues := match srvl body with
                        | Some leagues => leagues
                        | None => cachedLeagues (globals Sample.start)
                        end |} /\
  sessionValidAt (globals (final r)) (Date_now Sample.badExpiry (tick (final r)))
  = false.
Proof.
  apply (login_invalid_expiry_leaves_session Sample.config Sample.badExpiry
           Sample.start
           (Sample.respond 200 "OK" ""
              (inr {| tkn := Some "jwt-token"; tknex := "soon";
                      srvl := None |}))
           {| tkn := Some "jwt-token"; tknex := "soon"; srvl := None |});
    reflexivity.
Defined.

Lemma ensureAuthenticated_postcondition_witness :
  let w := Sample.nullToken in
  let st := Sample.start in
  let g := globals (final (ensureAuthenticated Sample.config w st)) in
  (exists t, tokenExpiry g = Some {| timeValue := Some t |}) /\
  (sessionValidAt (globals st) (Date_now w (tick st)) = true ->
   g = globals st /\ exists token, authToken g = Some token) /\
  (sessionValidAt (globals st) (Date_now w (tick st)) = false ->
   exists response body,
     fetch_login w (tick (final (isTokenValid w st)))
       (loginRequest Sample.config) = inr response /\
     ok response = true /\ json response = inr body /\
     authToken g = tkn body).
Proof.
  apply (ensureAuthenticated_postcondition Sample.config Sample.nullToken
           Sample.start).
  vm_compute. reflexivity.
Defined.

(** The login answer of [Sample.nullToken] carries no token: after a
    successful [ensureAuthenticated] none is stored, and the budget request
    of the run goes out with the header "Bearer null". *)
Example null_token_is_sent_as_bearer_null :
  outcome (ensureAuthenticated Sample.config Sample.nullToken Sample.start)
  = Return tt /\
  authToken
    (globals (final (ensureAuthenticated Sample.config Sample.nullToken
                       Sample.start))) = None /\
  budgetCalls (trace (runCheck Sample.config Sample.nullToken Sample.start))
  = [budgetRequest Sample.config Sample.league None] /\
  In ("Authorization", "Bearer null")
     (req_headers (budgetRequest Sample.config Sample.league None)).
Proof. repeat split; vm_compute; auto. Qed.

Lemma getKickbaseLeagues_result_is_cached_witness :
  cachedLeagues
    (globals (final (getKickbaseLeagues Sample.config Sample.bareLeagues
                       Sample.start)))
  = [Some Sample.league; Some Sample.otherLeague].
Proof.
  apply (getKickbaseLeagues_result_is_cached Sample.config Sample.bareLeagues
           Sample.start).
  vm_compute. reflexivity.
Defined.

Lemma getKickbaseLeagues_single_error_witness :
  ErrorNew "Could not fetch leagues from any known endpoint"
  = ErrorNew "Could not fetch leagues from any known endpoint".
Proof.
  apply (getKickbaseLeagues_single_error Sample.config Sample.noLeagues
           Sample.start);
    vm_compute; reflexivity.
Defined.

Lemma getKickbaseLeagues_from_endpoint_witness :
  let st := Sample.loggedInNoCache in
  let req := getRequest
               (KICKBASE_API_BASE Sample.config ++ "/v4/leagues")%string
               (authToken (globals st)) in
  outcome (getKickbaseLeagues Sample.config Sample.bareLeagues st)
  = Return (leaguesOf (LeaguesArray [Some Sample.league; Some Sample.otherLeague])) /\
  cachedLeagues
    (globals (final (getKickbaseLeagues Sample.config Sample.bareLeagues st)))
  = leaguesOf (LeaguesArray [Some Sample.league; Some Sample.otherLeague]) /\
  networkCalls (trace (getKickbaseLeagues Sample.config Sample.bareLeagues st))
  = [(LeaguesEndpoint, req)].
Proof.
  apply (getKickbaseLeagues_from_endpoint Sample.config Sample.bareLeagues
           Sample.loggedInNoCache
           (Sample.respond 200 "OK" ""
              (inr (LeaguesArray [Some Sample.league; Some Sample.otherLeague])))
           (LeaguesArray [Some Sample.league; Some Sample.otherLeague]));
    try reflexivity.
  discriminate.
Defined.

Lemma getKickbaseBudget_cold_start_witness :
  let w := Sample.inlineLeagues (-100) (inr "SM1") in
  let st1 := final (loginToKickbase Sample.config w
                      (final (isTokenValid w Sample.start))) in
  let req := budgetRequest Sample.config Sample.league (Some "jwt-token") in
  outcome (getKickbaseBudget Sample.config w Sample.start)
  = budgetOutcome (fetch_budget w (S (tick st1)) req) /\
  networkCalls (trace (getKickbaseBudget Sample.config w Sample.start))
  = [(LoginEndpoint, loginRequest Sample.config); (BudgetEndpoint, req)].
Proof.
  apply (getKickbaseBudget_cold_start Sample.config
           (Sample.inlineLeagues (-100) (inr "SM1")) Sample.start
           (Sample.loginBody (Some [Some Sample.league])) Sample.league []);
    vm_compute; reflexivity.
Defined.

Lemma getKickbaseBudget_warm_witness :
  let w := Sample.inlineLeagues (-100) (inr "SM1") in
  let req := budgetRequest Sample.config Sample.league
               (authToken (globals Sample.loggedIn)) in
  outcome (getKickbaseBudget Sample.config w Sample.loggedIn)
  = budgetOutcome (fetch_budget w (S (S (tick Sample.loggedIn))) req) /\
  networkCalls (trace (getKickbaseBudget Sample.config w Sample.loggedIn))
  = [(BudgetEndpoint, req)] /\
  globals (final (getKickbaseBudget Sample.config w Sample.loggedIn))
  = globals Sample.loggedIn.
Proof.
  apply (getKickbaseBudget_warm Sample.config
           (Sample.inlineLeagues (-100) (inr "SM1")) Sample.loggedIn
           Sample.league []);
    vm_compute; reflexivity.
Defined.

Lemma alert_requires_negative_report_witness :
  let w := Sample.inlineLeagues (-100) (inr "SM1") in
  exists t req response budgetData budget,
    fetch_budget w t req = inr response /\ ok response = true /\
    json response = inr budgetData /\
    b budgetData = Some budget /\ budget < 0 /\
    notifications (trace (runCheck Sample.config w Sample.start))
    = [alertMessage Sample.config budget].
Proof.
  apply (alert_requires_negative_report Sample.config
           (Sample.inlineLeagues (-100) (inr "SM1")) Sample.start).
  vm_compute. discriminate.
Defined.

Lemma small_deficits_render_as_zero_witness :
  formatMillions (-4999) = "-0.00M".
Proof. apply (small_deficits_render_as_zero (-4999)). lia. Defined.

(** The bound of X12 is tight. *)
Example deficit_of_5000_renders_as_one_cent :
  formatMillions (-5000) = "-0.01M".
Proof. vm_compute. reflexivity. Qed.

Lemma inlineLeagues_has_token v twilio :
  forall t req response body,
    fetch_login (Sample.inlineLeagues v twilio) t req = inr response ->
    ok response = true -> json response = inr body -> tkn body <> None.
Proof.
  intros t req response body [= <-] _ [= <-]. discriminate.
Defined.

Lemma requests_carry_a_token_witness :
  let w := Sample.inlineLeagues (-100) (inr "SM1") in
  let req := budgetRequest Sample.config Sample.league (Some "jwt-token") in
  exists url token,
    req = getRequest url (Some token) /\
    In ("Authorization", ("Bearer " ++ token)%string) (req_headers req) /\
    (authToken (globals Sample.start) = Some token \/ issued w token).
Proof.
  apply (requests_carry_a_token Sample.config
           (Sample.inlineLeagues (-100) (inr "SM1"))
           (inlineLeagues_has_token (-100) (inr "SM1")) Sample.start
           BudgetEndpoint).
  - vm_compute. do 11 right. left. reflexivity.
  - discriminate.
Defined.


Lemma ensureAuthenticated_logs_in_again_witness :
  let r1 := ensureAuthenticated Sample.config Sample.shortLived Sample.start in
  let r2 := ensureAuthenticated Sample.config Sample.shortLived (final r1) in
  networkCalls (trace r1 ++ trace r2)
  = [(LoginEndpoint, loginRequest Sample.config);
     (LoginEndpoint, loginRequest Sample.config)].
Proof.
  apply (ensureAuthenticated_logs_in_again Sample.config Sample.shortLived
           Sample.start);
    vm_compute; reflexivity.
Defined.

Lemma rejected_login_ends_the_run_witness :
  fatalErrors (trace (runCheck Sample.config Sample.unreadableBody
                        Sample.start))
  = [Rejected "body stream aborted"] /\
  networkCalls (trace (runCheck Sample.config Sample.unreadableBody
                         Sample.start))
  = [(LoginEndpoint, loginRequest Sample.config)] /\
  notifications (trace (runCheck Sample.config Sample.unreadableBody
                          Sample.start)) = [] /\
  globals (final (runCheck Sample.config Sample.unreadableBody Sample.start))
  = globals Sample.start.
Proof.
  apply (rejected_login_ends_the_run Sample.config Sample.unreadableBody
           Sample.start
           {| status := 500; statusText := "Internal Server Error";
              text := inl "body stream aborted";
              json := inl "body stream aborted" |});
    reflexivity.
Defined.
